(** * Comment resolution, caching and sub-tag extraction

    A shallow embedding of [src/lib/converter/comments/index.ts]:
    the comment cache ([commentCache], [getCommentWithCache]), the three
    resolution entry points ([getComment], [getSignatureComment],
    [getJsDocComment]) and the properties the engine is specified to have.

    [Comment] objects are mutable JavaScript objects.  They live in an
    explicit store ([heap]); the cache holds references into the store and
    every entry point hands out references, so that aliasing between the
    canonical cached value and what a caller receives is visible. *)

From stdpp Require Import gmap strings list pretty.

Local Open Scope Z_scope.

(** ** TypeScript syntax: the fields the engine reads *)

(** [ts.SyntaxKind], restricted to the kinds the engine tests for. *)
Inductive SyntaxKind :=
  | SourceFileKind
  | JSDocKind
  | JSDocTypeLiteralKind
  | OtherKind.

Global Instance SyntaxKind_eq_dec : EqDecision SyntaxKind.
Proof. solve_decision. Defined.

(** [ts.CommentKind]: the type of [range.kind].  The [default] arm of the
    [switch] in [getCommentWithCache] has type [never] and is not
    represented. *)
Inductive CommentKind :=
  | MultiLineCommentTrivia
  | SingleLineCommentTrivia.

(** [ts.SourceFile].  [file_id] stands for the object identity that keys
    the [WeakMap]. *)
Record SourceFile := {
  file_id : positive;
  fileName : string;
  file_text : string
}.

(** [ts.CommentRange] *)
Record CommentRange := {
  range_kind : CommentKind;
  range_pos : Z;
  range_end : Z
}.

(** A syntax tree node as seen when walking [parent] links. *)
Record Node := {
  node_kind : SyntaxKind;
  node_pos : Z;
  node_end : Z
}.

Definition isSourceFile (n : Node) : bool := bool_decide (node_kind n = SourceFileKind).
Definition isJSDoc (n : Node) : bool := bool_decide (node_kind n = JSDocKind).

(** [ts.Symbol]: [declarations] is an optional property. *)
Record Symbol := {
  symbol_name : string;
  declarations : option (list Node)
}.

(** [ReflectionKind] is a numeric enum, only passed through to discovery. *)
Definition ReflectionKind := N.

(** The [comment] property of a JSDoc tag: [string | NodeArray | undefined]. *)
Inductive JSDocText :=
  | JSDocTextString (s : string)
  | JSDocTextNodes (parts : list string).

(** The five node types [getJsDocComment] accepts.  A name is recorded by
    the text [getText()] gives; a type parameter by [name.text]. *)
Inductive JSDocTagShape :=
  | JSDocPropertyLikeTag (name : string)
  | JSDocCallbackTag (name : option string)
  | JSDocTypedefTag (name : option string)
  | JSDocTemplateTag (typeParameters : list string)
  | JSDocEnumTag.

(** A JSDoc tag node: [decl_tagName] is [tagName.text], [decl_ancestors]
    the chain of [parent] links, nearest first, and [decl_sourceFile] what
    [getSourceFile()] gives. *)
Record JSDocDeclaration := {
  decl_shape : JSDocTagShape;
  decl_tagName : string;
  decl_comment : option JSDocText;
  decl_ancestors : list Node;
  decl_sourceFile : SourceFile
}.

Definition isJSDocEnumTag (d : JSDocDeclaration) : bool :=
  match decl_shape d with JSDocEnumTag => true | _ => false end.

Definition isJSDocTemplateTag (d : JSDocDeclaration) : bool :=
  match decl_shape d with JSDocTemplateTag _ => true | _ => false end.

(** JavaScript truthiness of [declaration.comment]. *)
Definition truthy_text (c : option JSDocText) : bool :=
  match c with
  | None => false
  | Some (JSDocTextString s) => negb (bool_decide (s = EmptyString))
  | Some (JSDocTextNodes _) => true
  end.

(** ** The Comment model *)

Inductive CommentDisplayPart :=
  | TextPart (s : string)
  | CodePart (s : string)
  | InlineTagPart (tag : string) (s : string).

(** Modelled from the spec: the [CommentTag] class of [../../models] is not
    part of the sources at hand.  A tag carries its tag-name token (such as
    [@param]), the name of the entity it documents when it has one, and
    its content. *)
Record CommentTag := {
  tag_token : string;
  tag_name : option string;
  tag_content : list CommentDisplayPart
}.

(** Modelled from the spec: the [Comment] class of [../../models] is not
    part of the sources at hand.  A comment is an ordered sequence of tags,
    a set of modifier markers and summary content. *)
Record Comment := {
  summary : list CommentDisplayPart;
  blockTags : list CommentTag;
  modifierTags : gset string
}.

Definition cloneDisplayPart (p : CommentDisplayPart) : CommentDisplayPart :=
  match p with
  | TextPart s => TextPart s
  | CodePart s => CodePart s
  | InlineTagPart t s => InlineTagPart t s
  end.

Definition cloneDisplayParts (ps : list CommentDisplayPart) : list CommentDisplayPart :=
  map cloneDisplayPart ps.

Definition CommentTag_clone (t : CommentTag) : CommentTag :=
  {| tag_token := tag_token t;
     tag_name := tag_name t;
     tag_content := cloneDisplayParts (tag_content t) |}.

(** Modelled from the spec: [Comment.clone] produces an independent deep
    copy.  This is the value of the copy; [clone] below allocates it as a
    new object. *)
Definition Comment_clone (c : Comment) : Comment :=
  {| summary := cloneDisplayParts (summary c);
     blockTags := map CommentTag_clone (blockTags c);
     modifierTags := modifierTags c |}.

(** Modelled from the spec: [new Comment(summary)] with the remaining
    constructor arguments defaulted; an [undefined] argument takes the
    default, an empty summary. *)
Definition Comment_new (content : option (list CommentDisplayPart)) : Comment :=
  {| summary := default [] content; blockTags := []; modifierTags := ∅ |}.

(** Modelled from the spec: [Comment.hasModifier] tests for a modifier
    marker. *)
Definition hasModifier (c : Comment) (tagName : string) : bool :=
  bool_decide (tagName ∈ modifierTags c).

(** Modelled from the spec: [Comment.getTag] is the first tag with the
    given tag-name token. *)
Definition getTag (c : Comment) (tagName : string) : option CommentTag :=
  find (λ t, bool_decide (tag_token t = tagName)) (blockTags c).

(** Modelled from the spec: [Comment.getIdentifiedTag] is the first tag
    matching both the tag-name token and the target name. *)
Definition getIdentifiedTag (c : Comment) (identifier tagName : string) : option CommentTag :=
  find (λ t, bool_decide (tag_token t = tagName) && bool_decide (tag_name t = Some identifier))
       (blockTags c).

(** [CommentParserConfig] *)
Record CommentParserConfig := {
  blockTagsConfig : gset string;
  inlineTagsConfig : gset string;
  modifierTagsConfig : gset string
}.

(** ** Program state and the effect monad *)

Inductive LogLevel := Warn | Error.

(** One call of [logger.warn] or [logger.error], with its optional node. *)
Record LogEntry := {
  log_level : LogLevel;
  log_message : string;
  log_node : option JSDocDeclaration
}.

(** A reference to a [Comment] object. *)
Abbreviation loc := nat (only parsing).

(** [heap] is the object store, allocation appends.  A cell holds the
    whole value of a [Comment], tags and content included: copies are deep,
    so nothing inside one object is shared with another.  [commentCache]
    is the module-level [WeakMap], by source file identity and then by
    start offset.  [logged] is what the logger received.  [parsed] records
    each call of [parseComment] with the cache key it was made for. *)
Record State := {
  heap : list Comment;
  commentCache : gmap positive (gmap Z loc);
  logged : list LogEntry;
  parsed : list (positive * Z)
}.

Definition initial_state : State :=
  {| heap := []; commentCache := ∅; logged := []; parsed := [] |}.

Inductive Exception :=
  | ThrownString (s : string)
  | TypeError
  | DanglingReference.

Inductive Result (A : Type) :=
  | Returned (a : A)
  | Thrown (e : Exception).
Arguments Returned {A} a.
Arguments Thrown {A} e.

Definition M (A : Type) : Type := State → Result A * State.

Definition ret {A} (a : A) : M A := λ s, (Returned a, s).

Definition bind {A B} (m : M A) (k : A → M B) : M B :=
  λ s, match m s with
       | (Returned a, s') => k a s'
       | (Thrown e, s') => (Thrown e, s')
       end.

Definition throw {A} (e : Exception) : M A := λ s, (Thrown e, s).

Declare Scope comment_scope.
Delimit Scope comment_scope with cm.
Notation "x ←' m ; k" := (bind m (λ x, k))
  (at level 100, m at next level, right associativity) : comment_scope.
Notation "m ;;' k" := (bind m (λ _, k))
  (at level 100, right associativity) : comment_scope.
Local Open Scope comment_scope.

(** Allocation of a new object. *)
Definition alloc (c : Comment) : M loc :=
  λ s, (Returned (length (heap s)),
        {| heap := heap s ++ [c]; commentCache := commentCache s;
           logged := logged s; parsed := parsed s |}).

(** Reading through a reference.  A reference outside the store does not
    arise in a run (see [wf] below); the case makes [read] total. *)
Definition read (l : loc) : M Comment :=
  λ s, match heap s !! l with
       | Some c => (Returned c, s)
       | None => (Thrown DanglingReference, s)
       end.

(** Modelled from the spec: [comment.clone()] of [../../models] returns a
    fresh copy, never the instance it is called on: a new object holding
    [Comment_clone] of the value. *)
Definition clone (l : loc) : M loc :=
  c ←' read l; alloc (Comment_clone c).

(** A caller overwriting the object it holds. *)
Definition mutate (l : loc) (c : Comment) (s : State) : State :=
  {| heap := <[l := c]> (heap s); commentCache := commentCache s;
     logged := logged s; parsed := parsed s |}.

(** Logger. *)
Definition log (lvl : LogLevel) (msg : string) (n : option JSDocDeclaration) : M unit :=
  λ s, (Returned tt,
        {| heap := heap s; commentCache := commentCache s;
           logged := logged s ++ [ {| log_level := lvl; log_message := msg; log_node := n |} ];
           parsed := parsed s |}).

Definition logger_warn (msg : string) (n : option JSDocDeclaration) : M unit := log Warn msg n.
Definition logger_error (msg : string) (n : option JSDocDeclaration) : M unit := log Error msg n.

Fixpoint for_each {A} (f : A → M unit) (xs : list A) : M unit :=
  match xs with
  | [] => ret tt
  | x :: xs' => f x ;;' for_each f xs'
  end.

(** Cache operations. *)
Definition commentCache_get (file : SourceFile) : M (option (gmap Z loc)) :=
  λ s, (Returned (commentCache s !! file_id file), s).

Definition commentCache_set (file : SourceFile) (cache : gmap Z loc) : M unit :=
  λ s, (Returned tt,
        {| heap := heap s; commentCache := <[file_id file := cache]> (commentCache s);
           logged := logged s; parsed := parsed s |}).

Definition note_parse (file : SourceFile) (p : Z) : M unit :=
  λ s, (Returned tt,
        {| heap := heap s; commentCache := commentCache s;
           logged := logged s; parsed := parsed s ++ [(file_id file, p)] |}).

(** ** External collaborators *)

(** Discovery, the lexer, the parser and two helpers used to build
    diagnostic locations are imported by the engine.  [parseComment] is
    given by the comment it builds together with the messages it passes to
    its [warning] callback, in order; [discoverComment] by what it finds
    together with the warnings it sends to the logger. *)
Class Collaborators := {
  SignatureNode : Type;
  TokenStream : Type;
  discoverComment :
    Symbol → ReflectionKind → option (SourceFile * CommentRange) * list string;
  discoverSignatureComment : SignatureNode → option (SourceFile * CommentRange);
  lexBlockComment : string → Z → Z → TokenStream;
  parseComment : TokenStream → CommentParserConfig → Comment * list string;
  nicePath : string → string;
  getLineAndCharacterOfPosition : SourceFile → Z → Z * Z
}.

(** ** Sample inputs

    A toy instance of the external collaborators and a few source files,
    symbols and JSDoc declarations, used to run the engine on concrete
    inputs. *)

Definition ex_config : CommentParserConfig :=
  {| blockTagsConfig := {["@enum"; "@param"; "@module"]};
     inlineTagsConfig := ∅;
     modifierTagsConfig := {["@packageDocumentation"]} |}.

(** The lexer hands the raw text of the range to the parser. *)
Definition ex_lexBlockComment (text : string) (start stop : Z) : string :=
  String.substring (Z.to_nat start) (Z.to_nat (stop - start)) text.

(** A parser that knows three comment blocks and warns about the rest. *)
Definition ex_parseComment (tokens : string) (config : CommentParserConfig)
    : Comment * list string :=
  if bool_decide (tokens = "/** @packageDocumentation */") then
    ({| summary := []; blockTags := [];
        modifierTags := {["@packageDocumentation"]} |}, [])
  else if bool_decide (tokens = "/** @enum Colours */") then
    ({| summary := [];
        blockTags := [ {| tag_token := "@enum"; tag_name := None;
                          tag_content := [TextPart "Colours"] |} ];
        modifierTags := ∅ |}, [])
  else if bool_decide (tokens = "/** Plain. */") then
    ({| summary := [TextPart "Plain."]; blockTags := []; modifierTags := ∅ |}, [])
  else
    (Comment_new None, ["Unrecognised comment"]).

Definition ex_nicePath (path : string) : string := path.

Definition ex_getLineAndCharacterOfPosition (file : SourceFile) (p : Z) : Z * Z := (0, p).

Definition ex_module_file : SourceFile :=
  {| file_id := 1; fileName := "src/index.ts";
     file_text := "/** @packageDocumentation */" |}.

Definition ex_enum_file : SourceFile :=
  {| file_id := 2; fileName := "src/colours.js"; file_text := "/** @enum Colours */" |}.

Definition ex_plain_file : SourceFile :=
  {| file_id := 3; fileName := "src/plain.js"; file_text := "/** Plain. */" |}.

(** The range of the comment that makes up the whole text of a file. *)
Definition ex_range (k : CommentKind) (file : SourceFile) : CommentRange :=
  {| range_kind := k; range_pos := 0;
     range_end := Z.of_nat (String.length (file_text file)) |}.

Definition ex_node (k : SyntaxKind) (file : SourceFile) : Node :=
  {| node_kind := k; node_pos := 0;
     node_end := Z.of_nat (String.length (file_text file)) |}.

Definition ex_module_symbol : Symbol :=
  {| symbol_name := "index";
     declarations := Some [ex_node SourceFileKind ex_module_file] |}.

Definition ex_class_symbol : Symbol :=
  {| symbol_name := "Widget";
     declarations := Some [ex_node OtherKind ex_module_file] |}.

Definition ex_bare_symbol : Symbol :=
  {| symbol_name := "ghost"; declarations := None |}.

(** Discovery finds the comment at the top of [ex_module_file] for the
    three sample symbols and nothing for any other symbol. *)
Definition ex_discoverComment (symbol : Symbol) (kind : ReflectionKind)
    : option (SourceFile * CommentRange) * list string :=
  if bool_decide (symbol_name symbol ∈ ["index"; "Widget"; "ghost"])
  then (Some (ex_module_file, ex_range MultiLineCommentTrivia ex_module_file), [])
  else (None, []).

Definition ex_discoverSignatureComment (declaration : unit)
    : option (SourceFile * CommentRange) := None.

Definition ex_collaborators : Collaborators :=
  {| SignatureNode := unit;
     TokenStream := string;
     discoverComment := ex_discoverComment;
     discoverSignatureComment := ex_discoverSignatureComment;
     lexBlockComment := ex_lexBlockComment;
     parseComment := ex_parseComment;
     nicePath := ex_nicePath;
     getLineAndCharacterOfPosition := ex_getLineAndCharacterOfPosition |}.

Definition ex_enum_member : JSDocDeclaration :=
  {| decl_shape := JSDocEnumTag; decl_tagName := "enum"; decl_comment := None;
     decl_ancestors := [ex_node JSDocKind ex_enum_file];
     decl_sourceFile := ex_enum_file |}.

Definition ex_enum_orphan : JSDocDeclaration :=
  {| decl_shape := JSDocEnumTag; decl_tagName := "enum"; decl_comment := None;
     decl_ancestors := [ex_node JSDocKind ex_plain_file];
     decl_sourceFile := ex_plain_file |}.

Definition ex_param : JSDocDeclaration :=
  {| decl_shape := JSDocPropertyLikeTag "x"; decl_tagName := "param";
     decl_comment := None;
     decl_ancestors := [ex_node JSDocTypeLiteralKind ex_plain_file;
                        ex_node JSDocKind ex_plain_file];
     decl_sourceFile := ex_plain_file |}.

Definition ex_template : JSDocDeclaration :=
  {| decl_shape := JSDocTemplateTag ["T"; "U"]; decl_tagName := "template";
     decl_comment := Some (JSDocTextString "the two types");
     decl_ancestors := [ex_node JSDocKind ex_plain_file];
     decl_sourceFile := ex_plain_file |}.

(** A second instance: the parser also knows a block with a [@param] tag,
    and signature discovery finds the block comment of [ex_module_file]
    for [true] and a line comment in [ex_plain_file] for [false]. *)
Definition ex_param_file : SourceFile :=
  {| file_id := 4; fileName := "src/callback.js"; file_text := "/** @param x the x */" |}.

Definition ex_parseComment2 (tokens : string) (config : CommentParserConfig)
    : Comment * list string :=
  if bool_decide (tokens = "/** @param x the x */") then
    ({| summary := [];
        blockTags := [ {| tag_token := "@param"; tag_name := Some "x";
                          tag_content := [TextPart "the x"] |} ];
        modifierTags := ∅ |}, [])
  else ex_parseComment tokens config.

Definition ex_discoverSignatureComment2 (declaration : bool)
    : option (SourceFile * CommentRange) :=
  if declaration
  then Some (ex_module_file, ex_range MultiLineCommentTrivia ex_module_file)
  else Some (ex_plain_file, ex_range SingleLineCommentTrivia ex_plain_file).

Definition ex_collaborators2 : Collaborators :=
  {| SignatureNode := bool;
     TokenStream := string;
     discoverComment := ex_discoverComment;
     discoverSignatureComment := ex_discoverSignatureComment2;
     lexBlockComment := ex_lexBlockComment;
     parseComment := ex_parseComment2;
     nicePath := ex_nicePath;
     getLineAndCharacterOfPosition := ex_getLineAndCharacterOfPosition |}.

Definition ex_documented_param : JSDocDeclaration :=
  {| decl_shape := JSDocPropertyLikeTag "x"; decl_tagName := "param";
     decl_comment := None;
     decl_ancestors := [ex_node JSDocKind ex_param_file];
     decl_sourceFile := ex_param_file |}.

Definition ex_unnamed_callback : JSDocDeclaration :=
  {| decl_shape := JSDocCallbackTag None; decl_tagName := "callback";
     decl_comment := None;
     decl_ancestors := [ex_node JSDocKind ex_plain_file];
     decl_sourceFile := ex_plain_file |}.

Definition ex_empty_template : JSDocDeclaration :=
  {| decl_shape := JSDocTemplateTag []; decl_tagName := "template";
     decl_comment := None;
     decl_ancestors := [ex_node JSDocKind ex_plain_file];
     decl_sourceFile := ex_plain_file |}.

Definition ex_other_symbol : Symbol :=
  {| symbol_name := "other"; declarations := None |}.

(** ** The engine *)

Section Engine.

Context {env : Collaborators}.

(** The [warning] closure of [getCommentWithCache]. *)
Definition warning_message (file : SourceFile) (line : Z) (warning : string) : string :=
  warning +:+ " in comment at " +:+ nicePath (fileName file) +:+ ":" +:+ pretty line +:+ ".".

(** The comment the parser builds for a block range of a file. *)
Definition parse_block (file : SourceFile) (range : CommentRange)
    (config : CommentParserConfig) : Comment * list string :=
  parseComment (lexBlockComment (file_text file) (range_pos range) (range_end range)) config.

(** Running the parser: the result is a new object, each warning goes
    through the callback, and the call is recorded. *)
Definition run_parseComment (file : SourceFile) (range : CommentRange)
    (config : CommentParserConfig) (warning : string → M unit) : M loc :=
  let '(c, ws) := parse_block file range config in
  note_parse file (range_pos range) ;;'
  for_each warning ws ;;'
  alloc c.

Definition getCommentWithCache (discovered : option (SourceFile * CommentRange))
    (config : CommentParserConfig) : M (option loc) :=
  match discovered with
  | None => ret None
  | Some (file, range) =>
    stored ←' commentCache_get file;
    let cache := default ∅ stored in
    match cache !! range_pos range with
    | Some l => r ←' clone l; ret (Some r)
    | None =>
      let line := (getLineAndCharacterOfPosition file (range_pos range)).1 + 1 in
      let warning := λ w, logger_warn (warning_message file line w) None in
      match range_kind range with
      | MultiLineCommentTrivia =>
        comment ←' run_parseComment file range config warning;
        commentCache_set file (<[range_pos range := comment]> cache) ;;'
        r ←' clone comment;
        ret (Some r)
      | SingleLineCommentTrivia => throw (ThrownString "GERRIT FIX ME")
      end
    end
  end.

(** [symbol.declarations?.some(ts.isSourceFile)], as a condition. *)
Definition some_isSourceFile (symbol : Symbol) : bool :=
  match declarations symbol with
  | None => false
  | Some ds => existsb isSourceFile ds
  end.

(** The guards of the two applicability checks of [getComment]. *)
Definition module_check_applies (symbol : Symbol) (comment : option loc) : bool :=
  some_isSourceFile symbol && bool_decide (is_Some comment).

Definition non_module_check_applies (symbol : Symbol) (comment : option loc) : bool :=
  negb (some_isSourceFile symbol) && bool_decide (is_Some comment).

(** Method calls through a reference. *)
Definition comment_hasModifier (l : loc) (tagName : string) : M bool :=
  c ←' read l; ret (hasModifier c tagName).

Definition comment_getTag (l : loc) (tagName : string) : M (option CommentTag) :=
  c ←' read l; ret (getTag c tagName).

Definition comment_getIdentifiedTag (l : loc) (identifier tagName : string)
    : M (option CommentTag) :=
  c ←' read l; ret (getIdentifiedTag c identifier tagName).

(** [comment.hasModifier("@packageDocumentation") || comment.getTag("@module")],
    with the short circuit of [||]. *)
Definition carries_module_marker (l : loc) : M bool :=
  m ←' comment_hasModifier l "@packageDocumentation";
  if m then ret true
  else t ←' comment_getTag l "@module"; ret (bool_decide (is_Some t)).

(** The same test on a comment value. *)
Definition is_module_comment (c : Comment) : bool :=
  hasModifier c "@packageDocumentation" || bool_decide (is_Some (getTag c "@module")).

(** Discovery with the warnings it sends to the logger. *)
Definition run_discoverComment (symbol : Symbol) (kind : ReflectionKind)
    : M (option (SourceFile * CommentRange)) :=
  let '(d, ws) := discoverComment symbol kind in
  for_each (λ w, logger_warn w None) ws ;;'
  ret d.

Definition getComment (symbol : Symbol) (kind : ReflectionKind)
    (config : CommentParserConfig) : M (option loc) :=
  discovered ←' run_discoverComment symbol kind;
  comment ←' getCommentWithCache discovered config;
  untagged_module ←'
    match comment with
    | Some l =>
      if module_check_applies symbol comment
      then marked ←' carries_module_marker l; ret (negb marked)
      else ret false
    | None => ret false
    end;
  if untagged_module then ret None
  else
    misplaced_module ←'
      match comment with
      | Some l =>
        if non_module_check_applies symbol comment
        then carries_module_marker l
        else ret false
      | None => ret false
      end;
    if misplaced_module then ret None
    else ret comment.

Definition getSignatureComment (declaration : SignatureNode)
    (config : CommentParserConfig) : M (option loc) :=
  getCommentWithCache (discoverSignatureComment declaration) config.

(** The ancestor walk [while (!ts.isJSDoc(parent)) parent = parent.parent]. *)
Fixpoint enclosing_JSDoc (ancestors : list Node) : option Node :=
  match ancestors with
  | [] => None
  | parent :: rest => if isJSDoc parent then Some parent else enclosing_JSDoc rest
  end.

Definition multiple_template_message : string :=
  "TypeDoc does not support multiple type parameters defined in a single @template tag with a comment.".

Definition missing_tag_message (name : string) : string :=
  "Failed to find JSDoc tag for " +:+ name +:+ " after parsing comment, please file a bug report.".

(** The part of [getJsDocComment] after the enum case: target name and
    tag lookup. *)
Definition target_name (declaration : JSDocDeclaration) : M (option string) :=
  match decl_shape declaration with
  | JSDocTemplateTag typeParameters =>
    match typeParameters with
    | first :: _ => ret (Some first)
    | [] => throw TypeError
    end
  | JSDocPropertyLikeTag name => ret (Some name)
  | JSDocCallbackTag name => ret name
  | JSDocTypedefTag name => ret name
  | JSDocEnumTag => ret None
  end.

Definition is_ambiguous_template (declaration : JSDocDeclaration) : bool :=
  match decl_shape declaration with
  | JSDocTemplateTag typeParameters =>
    truthy_text (decl_comment declaration) && bool_decide (1 < length typeParameters)%nat
  | _ => false
  end.

(** The block range [getJsDocComment] resolves for a parent node. *)
Definition block_range (parent : Node) : CommentRange :=
  {| range_kind := MultiLineCommentTrivia;
     range_pos := node_pos parent;
     range_end := node_end parent |}.

Definition getJsDocComment (declaration : JSDocDeclaration)
    (config : CommentParserConfig) : M (option loc) :=
  let file := decl_sourceFile declaration in
  match enclosing_JSDoc (decl_ancestors declaration) with
  | None => throw TypeError
  | Some parent =>
    resolved ←' getCommentWithCache (Some (file, block_range parent)) config;
    match resolved with
    | None => throw TypeError
    | Some comment =>
      if isJSDocEnumTag declaration then
        tag ←' comment_getTag comment "@enum";
        r ←' alloc (Comment_new (tag_content <$> tag));
        ret (Some r)
      else if is_ambiguous_template declaration then
        logger_warn multiple_template_message (Some declaration) ;;'
        ret None
      else
        name ←' target_name declaration;
        match name with
        | None => ret None
        | Some name =>
          if bool_decide (name = EmptyString) then ret None
          else
            tag ←' comment_getIdentifiedTag comment name ("@" +:+ decl_tagName declaration);
            match tag with
            | None =>
              logger_error (missing_tag_message name) (Some declaration) ;;'
              ret None
            | Some tag =>
              r ←' alloc (Comment_new (Some (tag_content tag)));
              ret (Some r)
            end
        end
    end
  end.

(** ** Views of the state used in the statements *)

(** The reference the cache holds for a key. *)
Definition cache_loc (s : State) (fid : positive) (p : Z) : option loc :=
  commentCache s !! fid ≫= (λ m : gmap Z loc, m !! p).

(** The canonical comment the cache holds for a key. *)
Definition cache_value (s : State) (fid : positive) (p : Z) : option Comment :=
  cache_loc s fid p ≫= (λ l : loc, heap s !! l).

(** The entries the logger received, once the parser's warnings for a
    block are turned into log entries. *)
Definition parser_warnings (file : SourceFile) (range : CommentRange)
    (ws : list string) : list LogEntry :=
  map (λ w, {| log_level := Warn;
               log_message := warning_message file
                 ((getLineAndCharacterOfPosition file (range_pos range)).1 + 1) w;
               log_node := None |}) ws.

(** Every cached reference points into the store. *)
Definition cache_closed (s : State) : Prop :=
  ∀ fid p l, cache_loc s fid p = Some l → (l < length (heap s))%nat.

(** No key was parsed twice, and what was parsed is cached. *)
Definition parsed_once (s : State) : Prop :=
  NoDup (parsed s) ∧ ∀ fid p, (fid, p) ∈ parsed s → is_Some (cache_loc s fid p).

Definition wf (s : State) : Prop := cache_closed s ∧ parsed_once s.

(** The three entry points, as calls a client can make. *)
Inductive EntryCall :=
  | CallGetComment (symbol : Symbol) (kind : ReflectionKind)
  | CallGetSignatureComment (declaration : SignatureNode)
  | CallGetJsDocComment (declaration : JSDocDeclaration).

Definition run_entry (call : EntryCall) (config : CommentParserConfig) : M (option loc) :=
  match call with
  | CallGetComment symbol kind => getComment symbol kind config
  | CallGetSignatureComment declaration => getSignatureComment declaration config
  | CallGetJsDocComment declaration => getJsDocComment declaration config
  end.

(** The cache key a call resolves and returns the comment of, when it
    returns what the shared core gives it. *)
Definition entry_key (call : EntryCall) : option (positive * Z) :=
  let key := λ d : SourceFile * CommentRange, (file_id d.1, range_pos d.2) in
  match call with
  | CallGetComment symbol kind => key <$> (discoverComment symbol kind).1
  | CallGetSignatureComment declaration => key <$> discoverSignatureComment declaration
  | CallGetJsDocComment _ => None
  end.

(** What a caller sees of a result: the comment behind the reference. *)
Definition view (s : State) (r : Result (option loc)) : Result (option Comment) :=
  match r with
  | Returned (Some l) =>
    match heap s !! l with
    | Some c => Returned (Some c)
    | None => Thrown DanglingReference
    end
  | Returned None => Returned None
  | Thrown e => Thrown e
  end.

(** Running several extractions one after the other. *)
Fixpoint extract_all (declarations : list JSDocDeclaration)
    (config : CommentParserConfig) : M (list (option loc)) :=
  match declarations with
  | [] => ret []
  | d :: ds =>
    r ←' getJsDocComment d config;
    rs ←' extract_all ds config;
    ret (r :: rs)
  end.

(** [getCommentWithCache] in closed form. *)
Definition resolved (file : SourceFile) (range : CommentRange)
    (config : CommentParserConfig) (s : State) : Result (option loc) * State :=
  match cache_loc s (file_id file) (range_pos range) with
  | Some l =>
    match heap s !! l with
    | Some c =>
      (Returned (Some (length (heap s))),
       {| heap := heap s ++ [Comment_clone c]; commentCache := commentCache s;
          logged := logged s; parsed := parsed s |})
    | None => (Thrown DanglingReference, s)
    end
  | None =>
    match range_kind range with
    | MultiLineCommentTrivia =>
      let c := (parse_block file range config).1 in
      (Returned (Some (S (length (heap s)))),
       {| heap := heap s ++ [c; Comment_clone c];
          commentCache :=
            <[file_id file :=
                <[range_pos range := length (heap s)]>
                  (default ∅ (commentCache s !! file_id file))]> (commentCache s);
          logged := logged s ++
            parser_warnings file range (parse_block file range config).2;
          parsed := parsed s ++ [(file_id file, range_pos range)] |})
    | SingleLineCommentTrivia => (Thrown (ThrownString "GERRIT FIX ME"), s)
    end
  end.

(** The canonical comment of a range: the cached one, or on a miss the
    one the parser builds. *)
Definition canonical (file : SourceFile) (range : CommentRange)
    (config : CommentParserConfig) (s : State) : Comment :=
  match cache_value s (file_id file) (range_pos range) with
  | Some c => c
  | None => (parse_block file range config).1
  end.

(** The state once the shared core has resolved a range. *)
Definition core_state (file : SourceFile) (range : CommentRange)
    (config : CommentParserConfig) (s : State) : State :=
  (getCommentWithCache (Some (file, range)) config s).2.

Definition add_log (e : LogEntry) (s : State) : State :=
  {| heap := heap s; commentCache := commentCache s;
     logged := logged s ++ [e]; parsed := parsed s |}.

Definition add_object (c : Comment) (s : State) : State :=
  {| heap := heap s ++ [c]; commentCache := commentCache s;
     logged := logged s; parsed := parsed s |}.

(** The state once discovery has reported its warnings. *)
Definition after_discovery (symbol : Symbol) (kind : ReflectionKind) (s : State) : State :=
  {| heap := heap s; commentCache := commentCache s;
     logged := logged s ++
       map (λ w, {| log_level := Warn; log_message := w; log_node := None |})
           (discoverComment symbol kind).2;
     parsed := parsed s |}.

(** What the applicability filter of [getComment] lets through. *)
Definition applicable (symbol : Symbol) (c : Comment) (l : loc) : option loc :=
  if some_isSourceFile symbol
  then (if is_module_comment c then Some l else None)
  else (if is_module_comment c then None else Some l).

(** The applicability filter of [getComment] on the outcome of the core. *)
Definition filtered (symbol : Symbol) (outcome : Result (option loc) * State)
    : Result (option loc) * State :=
  match outcome with
  | (Returned (Some l), s1) =>
    match heap s1 !! l with
    | Some c => (Returned (applicable symbol c l), s1)
    | None => (Thrown DanglingReference, s1)
    end
  | _ => outcome
  end.

(** The two diagnostics of [getJsDocComment]. *)
Definition multiple_template_warning (declaration : JSDocDeclaration) : LogEntry :=
  {| log_level := Warn; log_message := multiple_template_message;
     log_node := Some declaration |}.

Definition missing_tag_error (declaration : JSDocDeclaration) (name : string) : LogEntry :=
  {| log_level := Error; log_message := missing_tag_message name;
     log_node := Some declaration |}.

(** What [getJsDocComment] does once the enclosing block is resolved to
    the object [l] holding the comment [c]. *)
Definition extracted (declaration : JSDocDeclaration) (c : Comment) (s : State)
    : Result (option loc) * State :=
  match decl_shape declaration with
  | JSDocEnumTag =>
    (Returned (Some (length (heap s))),
     add_object (Comment_new (tag_content <$> getTag c "@enum")) s)
  | _ =>
    if is_ambiguous_template declaration then
      (Returned None, add_log (multiple_template_warning declaration) s)
    else
      match target_name declaration s with
      | (Returned (Some name), _) =>
        if bool_decide (name = EmptyString) then (Returned None, s)
        else
          match getIdentifiedTag c name ("@" +:+ decl_tagName declaration) with
          | None =>
            (Returned None, add_log (missing_tag_error declaration name) s)
          | Some tag =>
            (Returned (Some (length (heap s))),
             add_object (Comment_new (Some (tag_content tag))) s)
          end
      | (Returned None, _) => (Returned None, s)
      | (Thrown e, _) => (Thrown e, s)
      end
  end.

(** The ranges the shared core can resolve: block comments, and ranges
    whose key is already cached. *)
Definition resolvable (s : State) (file : SourceFile) (range : CommentRange) : Prop :=
  range_kind range = MultiLineCommentTrivia ∨
  is_Some (cache_loc s (file_id file) (range_pos range)).

(** The module-level markers, as the filter of [getComment] tests them. *)
Definition module_marked (c : Comment) : Prop :=
  hasModifier c "@packageDocumentation" = true ∨ is_Some (getTag c "@module").

(** An enum-member declaration inside the comment block [parent] of [file]. *)
Definition enum_member_of (file : SourceFile) (parent : Node)
    (declaration : JSDocDeclaration) : Prop :=
  decl_shape declaration = JSDocEnumTag ∧
  decl_sourceFile declaration = file ∧
  enclosing_JSDoc (decl_ancestors declaration) = Some parent.

(** The reference [l] is an object of the store that the cache does not hold. *)
Definition not_cached (s : State) (l : loc) : Prop :=
  ∀ fid p, cache_loc s fid p ≠ Some l.

Definition client_owned (s : State) (l : loc) : Prop :=
  (l < length (heap s))%nat ∧ not_cached s l.

(** The references a call hands to the client. *)
Definition handed_out (r : Result (option loc)) : list loc :=
  match r with
  | Returned (Some l) => [l]
  | _ => []
  end.

(** The states of a run: starting with an empty cache, clients call the
    entry points and overwrite the objects they were given.  The list is
    what the clients hold. *)
Inductive reachable : State → list loc → Prop :=
  | reachable_initial : reachable initial_state []
  | reachable_call s owned call config r s1 :
      reachable s owned →
      run_entry call config s = (r, s1) →
      reachable s1 (handed_out r ++ owned)
  | reachable_mutate s owned l c :
      reachable s owned →
      l ∈ owned →
      reachable (mutate l c s) owned.

(** What discovery gives for a call of [getComment] or
    [getSignatureComment]. *)
Definition entry_discovered (call : EntryCall) : option (SourceFile * CommentRange) :=
  match call with
  | CallGetComment symbol kind => (discoverComment symbol kind).1
  | CallGetSignatureComment declaration => discoverSignatureComment declaration
  | CallGetJsDocComment _ => None
  end.

Definition is_discovery_call (call : EntryCall) : bool :=
  match call with
  | CallGetJsDocComment _ => false
  | _ => true
  end.

(** A declaration inside the comment block [parent] of [file]. *)
Definition in_block (file : SourceFile) (parent : Node)
    (declaration : JSDocDeclaration) : Prop :=
  decl_sourceFile declaration = file ∧
  enclosing_JSDoc (decl_ancestors declaration) = Some parent.

(** A stretch of a run between two states: calls of the entry points and
    overwrites by the clients of objects they hold. *)
Inductive evolves : State → list loc → State → list loc → Prop :=
  | evolves_refl s owned : evolves s owned s owned
  | evolves_call s owned s1 owned1 call config r s2 :
      evolves s owned s1 owned1 →
      run_entry call config s1 = (r, s2) →
      evolves s owned s2 (handed_out r ++ owned1)
  | evolves_mutate s owned s1 owned1 l c :
      evolves s owned s1 owned1 →
      l ∈ owned1 →
      evolves s owned (mutate l c s1) owned1.

(** The failures of the entry points, by call. *)
Definition failure_of (call : EntryCall) (config : CommentParserConfig)
    (s : State) (e : Exception) (s1 : State) : Prop :=
  match call with
  | CallGetComment symbol kind =>
    e = ThrownString "GERRIT FIX ME" ∧ s1 = after_discovery symbol kind s ∧
    ∃ file range,
      (discoverComment symbol kind).1 = Some (file, range) ∧
      range_kind range = SingleLineCommentTrivia ∧
      cache_loc s (file_id file) (range_pos range) = None
  | CallGetSignatureComment declaration =>
    e = ThrownString "GERRIT FIX ME" ∧ s1 = s ∧
    ∃ file range,
      discoverSignatureComment declaration = Some (file, range) ∧
      range_kind range = SingleLineCommentTrivia ∧
      cache_loc s (file_id file) (range_pos range) = None
  | CallGetJsDocComment declaration =>
    e = TypeError ∧
    ((enclosing_JSDoc (decl_ancestors declaration) = None ∧ s1 = s) ∨
     ∃ parent,
       enclosing_JSDoc (decl_ancestors declaration) = Some parent ∧
       decl_shape declaration = JSDocTemplateTag [] ∧
       s1 = core_state (decl_sourceFile declaration) (block_range parent) config s)
  end.

(** ** Basic facts *)

Lemma cloneDisplayParts_id ps : cloneDisplayParts ps = ps.
Proof.
  unfold cloneDisplayParts. induction ps as [|p ps IH]; simpl; [done|].
  rewrite IH. by destruct p.
Qed.

Lemma Comment_clone_id c : Comment_clone c = c.
Proof.
  destruct c as [sm tags mods]. unfold Comment_clone; simpl.
  rewrite cloneDisplayParts_id. f_equal.
  induction tags as [|t tags IH]; simpl; [done|].
  rewrite IH. f_equal. destruct t as [tk nm ct]; unfold CommentTag_clone; simpl.
  by rewrite cloneDisplayParts_id.
Qed.

Lemma for_each_warn (g : string → string) ws s :
  for_each (λ w, logger_warn (g w) None) ws s =
  (Returned tt,
   {| heap := heap s; commentCache := commentCache s;
      logged := logged s ++
        map (λ w, {| log_level := Warn; log_message := g w; log_node := None |}) ws;
      parsed := parsed s |}).
Proof.
  revert s. induction ws as [|w ws IH]; intros s; simpl.
  - unfold ret. rewrite app_nil_r. by destruct s.
  - unfold bind, logger_warn, log at 1. rewrite IH. simpl.
    by rewrite <- app_assoc.
Qed.

Lemma getCommentWithCache_resolved file range config s :
  getCommentWithCache (Some (file, range)) config s = resolved file range config s.
Proof.
  unfold getCommentWithCache, resolved, cache_loc, bind at 1, commentCache_get.
  destruct (commentCache s !! file_id file) as [m|] eqn:Hm; simpl.
  - destruct (m !! range_pos range) as [l|] eqn:Hl; simpl.
    + unfold bind, clone, bind, read. destruct (heap s !! l); simpl; done.
    + destruct (range_kind range); [|done].
      unfold run_parseComment. destruct (parse_block file range config) as [c ws] eqn:Hp.
      unfold bind at 1 2 3. unfold note_parse at 1. unfold bind at 1.
      rewrite for_each_warn. simpl.
      unfold bind, clone, bind, read; simpl.
      rewrite lookup_app_r by lia. rewrite Nat.sub_diag. simpl.
      unfold ret, parser_warnings. rewrite length_app. simpl.
      rewrite Nat.add_1_r. rewrite <- app_assoc. done.
  - rewrite lookup_empty. destruct (range_kind range); [|done].
    unfold run_parseComment. destruct (parse_block file range config) as [c ws] eqn:Hp.
    unfold bind at 1 2 3. unfold note_parse at 1. unfold bind at 1.
    rewrite for_each_warn. simpl.
    unfold bind, clone, bind, read; simpl.
    rewrite lookup_app_r by lia. rewrite Nat.sub_diag. simpl.
    unfold ret, parser_warnings. rewrite length_app. simpl.
    rewrite Nat.add_1_r. rewrite <- app_assoc. done.
Qed.

(** Reading the store just after allocation. *)
Lemma lookup_new (h : list Comment) c : (h ++ [c]) !! length h = Some c.
Proof. by apply list_lookup_middle. Qed.

Lemma lookup_new2_fst (h : list Comment) a b : (h ++ [a; b]) !! length h = Some a.
Proof. by apply list_lookup_middle. Qed.

Lemma lookup_new2_snd (h : list Comment) a b : (h ++ [a; b]) !! S (length h) = Some b.
Proof.
  change (h ++ [a; b]) with (h ++ [a] ++ [b]). rewrite app_assoc.
  apply list_lookup_middle. rewrite length_app. simpl. lia.
Qed.

Lemma lookup_old (h ext : list Comment) l c : h !! l = Some c → (h ++ ext) !! l = Some c.
Proof. intros H. rewrite lookup_app_l; [done|]. by eapply lookup_lt_Some. Qed.

(** Lookup in the cache after [cache.set(pos, l); commentCache.set(file, cache)]. *)
Lemma lookup_partition_insert (cc : gmap positive (gmap Z loc)) fid p l fid' p' :
  (<[fid := <[p := l]> (default ∅ (cc !! fid))]> cc) !! fid' ≫= (λ m : gmap Z loc, m !! p')
  = if decide (fid' = fid ∧ p' = p) then Some l
    else cc !! fid' ≫= (λ m : gmap Z loc, m !! p').
Proof.
  destruct (decide (fid' = fid)) as [->|Hf].
  - rewrite lookup_insert_eq. simpl.
    destruct (decide (p' = p)) as [->|Hp].
    + rewrite lookup_insert_eq. by rewrite decide_True.
    + rewrite lookup_insert_ne by done. rewrite decide_False by (intros [_ ?]; done).
      destruct (cc !! fid); simpl; [done|]. by rewrite lookup_empty.
  - rewrite lookup_insert_ne by done. by rewrite decide_False by (intros [? _]; done).
Qed.

(** How one call of the shared core changes the state, case by case. *)
Lemma resolved_cases file range config s :
  cache_closed s →
  let fid := file_id file in
  let p := range_pos range in
  (∃ l c, cache_loc s fid p = Some l ∧ heap s !! l = Some c ∧
     resolved file range config s =
     (Returned (Some (length (heap s))), add_object (Comment_clone c) s))
  ∨ (cache_loc s fid p = None ∧ range_kind range = MultiLineCommentTrivia ∧
     ∃ s1, resolved file range config s = (Returned (Some (S (length (heap s)))), s1) ∧
       heap s1 = heap s ++ [(parse_block file range config).1;
                            Comment_clone (parse_block file range config).1] ∧
       (∀ fid' p', cache_loc s1 fid' p' =
          if decide (fid' = fid ∧ p' = p) then Some (length (heap s))
          else cache_loc s fid' p') ∧
       logged s1 = logged s ++ parser_warnings file range (parse_block file range config).2 ∧
       parsed s1 = parsed s ++ [(fid, p)])
  ∨ (cache_loc s fid p = None ∧ range_kind range = SingleLineCommentTrivia ∧
     resolved file range config s = (Thrown (ThrownString "GERRIT FIX ME"), s)).
Proof.
  intros Hc fid p. unfold resolved. fold fid p.
  destruct (cache_loc s fid p) as [l|] eqn:Hl.
  - left. destruct (lookup_lt_is_Some_2 (heap s) l (Hc _ _ _ Hl)) as [c Hcv].
    exists l, c. by rewrite Hcv.
  - right. destruct (range_kind range); [left|right]; repeat split; try done.
    eexists; split; [done|]. simpl. repeat split; try done.
    intros fid' p'. unfold cache_loc; simpl. apply lookup_partition_insert.
Qed.

Lemma wf_add_object c s : wf s → wf (add_object c s).
Proof.
  intros [Hc Hp]. split.
  - intros fid p l Hl. simpl. rewrite length_app. simpl.
    pose proof (Hc fid p l Hl). lia.
  - exact Hp.
Qed.

Lemma wf_add_log e s : wf s → wf (add_log e s).
Proof. intros [Hc Hp]. split; [exact Hc | exact Hp]. Qed.

(** The shared core keeps the state well formed. *)
Lemma resolved_wf file range config s :
  wf s → wf (resolved file range config s).2.
Proof.
  intros Hwf. pose proof Hwf as [Hc [Hnd Hp]].
  destruct (resolved_cases file range config s Hc)
    as [(l & c & Hl & Hv & ->)|[(Hl & Hk & s1 & -> & Hh & Hcl & Hlg & Hpa)|(Hl & Hk & ->)]];
    simpl; [by apply wf_add_object| |done].
  split; [|split].
  - intros fid p l. rewrite Hcl, Hh, length_app. simpl.
    case_decide; [intros [= <-]; lia|]. intros Hx. pose proof (Hc _ _ _ Hx). lia.
  - rewrite Hpa. apply NoDup_app. split; [done|]. split; [|apply NoDup_singleton].
    intros k Hk1 Hk2. apply list_elem_of_singleton in Hk2 as ->.
    apply Hp in Hk1 as [x Hx]. congruence.
  - intros fid p. rewrite Hpa, Hcl, elem_of_app, list_elem_of_singleton.
    intros [Hin|[= -> ->]].
    + case_decide; [done|]. by apply Hp.
    + by rewrite decide_True.
Qed.

(** ** The cache *)

(** Two resolutions of one range in a row, from a well-formed state. *)
Lemma getCommentWithCache_twice file range config s r1 s1 r2 s2 :
  wf s →
  getCommentWithCache (Some (file, range)) config s = (r1, s1) →
  getCommentWithCache (Some (file, range)) config s1 = (r2, s2) →
  parsed s2 = parsed s1 ∧
  NoDup (parsed s2) ∧
  view s2 r2 = view s1 r1 ∧
  (length (parsed s2) ≤ S (length (parsed s)))%nat.
Proof.
  intros Hwf H1 H2.
  assert (Hwf1 : wf s1).
  { replace s1 with (resolved file range config s).2
      by (by rewrite <- getCommentWithCache_resolved, H1).
    by apply resolved_wf. }
  assert (Hwf2 : wf s2).
  { replace s2 with (resolved file range config s1).2
      by (by rewrite <- getCommentWithCache_resolved, H2).
    by apply resolved_wf. }
  rewrite getCommentWithCache_resolved in H1, H2.
  destruct Hwf as [Hc _].
  destruct (resolved_cases file range config s Hc)
    as [(l & c & Hl & Hv & E1)|[(Hl & Hk & s1' & E1 & Hh & Hcl & Hlg & Hpa)|(Hl & Hk & E1)]];
    rewrite E1 in H1; injection H1 as <- <-.
  - (* cached before the first call *)
    destruct (resolved_cases file range config (add_object (Comment_clone c) s)
                (proj1 Hwf1))
      as [(l' & c' & Hl' & Hv' & E2)|[(Hl' & _)|(Hl' & _)]];
      [|unfold cache_loc in *; simpl in *; congruence..].
    rewrite E2 in H2. injection H2 as <- <-.
    assert (l' = l) as -> by (unfold cache_loc in *; simpl in *; congruence).
    simpl in Hv'. rewrite lookup_app_l in Hv' by (by eapply lookup_lt_Some).
    assert (c' = c) as -> by congruence.
    split; [done|]. split; [apply Hwf2|]. split; [|simpl; lia].
    unfold view, add_object; simpl. by rewrite !lookup_new.
  - (* parsed by the first call *)
    destruct (resolved_cases file range config s1' (proj1 Hwf1))
      as [(l' & c' & Hl' & Hv' & E2)|[(Hl' & _)|(Hl' & _)]].
    2,3: rewrite Hcl, decide_True in Hl' by done; done.
    rewrite E2 in H2. injection H2 as <- <-.
    rewrite Hcl, decide_True in Hl' by done. injection Hl' as <-.
    rewrite Hh in Hv'. rewrite lookup_app_r in Hv' by lia.
    rewrite Nat.sub_diag in Hv'. injection Hv' as <-.
    split; [done|]. split; [apply Hwf2|]. split.
    + unfold view, add_object; simpl. rewrite lookup_new, Hh, lookup_new2_snd.
      by rewrite Comment_clone_id.
    + simpl. rewrite Hpa, length_app. simpl. lia.
  - (* line comment: both calls fail alike *)
    rewrite E1 in H2. injection H2 as <- <-.
    split; [done|]. split; [apply Hwf2|]. split; [done|lia].
Qed.

(** C3 (line comments).  A line-style range that is not cached makes the
    shared core throw the string literal [GERRIT FIX ME], leaving the
    state as it was. *)
Theorem getCommentWithCache_line_comment_throws file range config s :
  range_kind range = SingleLineCommentTrivia →
  cache_loc s (file_id file) (range_pos range) = None →
  getCommentWithCache (Some (file, range)) config s =
  (Thrown (ThrownString "GERRIT FIX ME"), s).
Proof.
  intros Hk Hl. rewrite getCommentWithCache_resolved. unfold resolved.
  by rewrite Hl, Hk.
Qed.

(** ** The entry points in closed form *)

Lemma run_discoverComment_eq symbol kind s :
  run_discoverComment symbol kind s =
  (Returned (discoverComment symbol kind).1, after_discovery symbol kind s).
Proof.
  unfold run_discoverComment, after_discovery.
  destruct (discoverComment symbol kind) as [d ws]. unfold bind.
  by rewrite (for_each_warn (λ w, w)).
Qed.

Lemma carries_module_marker_eq l c s :
  heap s !! l = Some c →
  carries_module_marker l s = (Returned (is_module_comment c), s).
Proof.
  intros H. unfold carries_module_marker, comment_hasModifier, comment_getTag,
    is_module_comment, bind, read, ret. rewrite H.
  destruct (hasModifier c "@packageDocumentation"); simpl; [done|]. by rewrite H.
Qed.

Lemma getComment_filtered symbol kind config s l s1 c :
  getCommentWithCache (discoverComment symbol kind).1 config
    (after_discovery symbol kind s) = (Returned (Some l), s1) →
  heap s1 !! l = Some c →
  getComment symbol kind config s = (Returned (applicable symbol c l), s1).
Proof.
  intros Hcore Hc. unfold getComment. unfold bind at 1.
  rewrite run_discoverComment_eq. unfold bind at 1. rewrite Hcore.
  unfold applicable, module_check_applies, non_module_check_applies.
  rewrite bool_decide_true by eauto. rewrite !andb_true_r.
  destruct (some_isSourceFile symbol); simpl.
  - unfold bind at 1. unfold bind at 1. rewrite (carries_module_marker_eq l c) by done.
    destruct (is_module_comment c); simpl; [|done]. by unfold bind, ret.
  - unfold bind at 1. unfold ret at 1. simpl. unfold bind at 1.
    rewrite (carries_module_marker_eq l c) by done.
    by destruct (is_module_comment c).
Qed.

Lemma getComment_not_returned symbol kind config s r s1 :
  getCommentWithCache (discoverComment symbol kind).1 config
    (after_discovery symbol kind s) = (r, s1) →
  (∀ l, r ≠ Returned (Some l)) →
  getComment symbol kind config s = (r, s1).
Proof.
  intros Hcore Hr. unfold getComment. unfold bind at 1.
  rewrite run_discoverComment_eq. unfold bind at 1. rewrite Hcore.
  destruct r as [[l|]|e]; [by destruct (Hr l)|done..].
Qed.

Lemma getJsDocComment_extracted declaration config s parent l s1 c :
  enclosing_JSDoc (decl_ancestors declaration) = Some parent →
  getCommentWithCache (Some (decl_sourceFile declaration, block_range parent)) config s
    = (Returned (Some l), s1) →
  heap s1 !! l = Some c →
  getJsDocComment declaration config s = extracted declaration c s1.
Proof.
  intros Hp Hcore Hc. unfold getJsDocComment, extracted. rewrite Hp.
  unfold bind at 1. rewrite Hcore.
  unfold isJSDocEnumTag, is_ambiguous_template, target_name.
  destruct (decl_shape declaration) as [n|[n|]|[n|]|tps|] eqn:Hs; simpl;
    try (destruct (truthy_text (decl_comment declaration) && bool_decide (1 < length tps)%nat);
         [|destruct tps as [|n tps']]);
    unfold bind, ret, throw, comment_getIdentifiedTag, comment_getTag, bind, read, ret,
      logger_warn, logger_error, log, alloc, add_log, add_object;
    simpl; try done;
    try (case_bool_decide; [done|]); try rewrite Hc; try done;
    by destruct (getIdentifiedTag _ _ _).
Qed.

(** ** The shared core on a resolvable range *)

Lemma is_module_comment_marked c : is_module_comment c = true ↔ module_marked c.
Proof.
  unfold is_module_comment, module_marked. rewrite orb_true_iff, bool_decide_eq_true.
  done.
Qed.

Lemma core_state_resolved file range config s :
  core_state file range config s = (resolved file range config s).2.
Proof. unfold core_state. by rewrite getCommentWithCache_resolved. Qed.

Lemma core_state_wf file range config s : wf s → wf (core_state file range config s).
Proof. rewrite core_state_resolved. apply resolved_wf. Qed.

(** On a resolvable range the core returns a new object holding the
    canonical comment, which is the value the cache holds afterwards. *)
Lemma getCommentWithCache_resolvable file range config s :
  cache_closed s → resolvable s file range →
  ∃ l, getCommentWithCache (Some (file, range)) config s =
         (Returned (Some l), core_state file range config s) ∧
       heap (core_state file range config s) !! l = Some (canonical file range config s) ∧
       cache_value (core_state file range config s) (file_id file) (range_pos range)
         = Some (canonical file range config s) ∧
       (length (heap s) ≤ l)%nat.
Proof.
  intros Hc Hr. rewrite core_state_resolved, getCommentWithCache_resolved.
  unfold canonical, cache_value.
  destruct (resolved_cases file range config s Hc)
    as [(l & c & Hl & Hv & ->)|[(Hl & Hk & s1 & -> & Hh & Hcl & Hlg & Hpa)|(Hl & Hk & ->)]];
    simpl.
  - exists (length (heap s)). rewrite Hl; simpl. rewrite Hv.
    split; [done|]. rewrite lookup_new, Comment_clone_id. split; [done|].
    split; [|lia]. unfold cache_loc in *; simpl. rewrite Hl; simpl.
    by apply lookup_old.
  - exists (S (length (heap s))). rewrite Hl; simpl.
    split; [done|]. rewrite Hh, lookup_new2_snd, Comment_clone_id. split; [done|].
    split; [|lia]. rewrite Hcl, decide_True by done. simpl.
    by rewrite lookup_new2_fst.
  - destruct Hr as [Hr|[x Hx]]; congruence.
Qed.

(** The core only adds to the store and to the cache. *)
Lemma core_state_cache_value file range config s fid p v :
  cache_closed s →
  cache_value s fid p = Some v →
  cache_value (core_state file range config s) fid p = Some v.
Proof.
  intros Hc. rewrite core_state_resolved. unfold cache_value.
  destruct (cache_loc s fid p) as [l0|] eqn:Hl0; simpl; [|done]. intros Hv.
  destruct (resolved_cases file range config s Hc)
    as [(l & c & Hl & Hv' & ->)|[(Hl & Hk & s1 & -> & Hh & Hcl & Hlg & Hpa)|(Hl & Hk & ->)]];
    simpl.
  - unfold cache_loc in *; simpl. rewrite Hl0; simpl. by apply lookup_old.
  - rewrite Hcl. rewrite decide_False by (intros [-> ->]; congruence).
    rewrite Hl0; simpl. rewrite Hh. by apply lookup_old.
  - by rewrite Hl0.
Qed.

(** What the core logs and parses: nothing on a hit, the parser's
    warnings and one parse on a miss. *)
Lemma core_state_effects file range config s :
  cache_closed s → range_kind range = MultiLineCommentTrivia →
  let s1 := core_state file range config s in
  match cache_loc s (file_id file) (range_pos range) with
  | Some _ => logged s1 = logged s ∧ parsed s1 = parsed s
  | None =>
    logged s1 = logged s ++ parser_warnings file range (parse_block file range config).2 ∧
    parsed s1 = parsed s ++ [(file_id file, range_pos range)]
  end.
Proof.
  intros Hc Hk. simpl. rewrite core_state_resolved.
  destruct (resolved_cases file range config s Hc)
    as [(l & c & Hl & Hv' & ->)|[(Hl & _ & s1 & -> & Hh & Hcl & Hlg & Hpa)|(Hl & Hk' & ->)]];
    rewrite Hl; simpl; [done|done|congruence].
Qed.

(** ** Symbol resolution and the applicability filter *)

Lemma getComment_resolvable symbol kind config s file range ws :
  cache_closed s →
  discoverComment symbol kind = (Some (file, range), ws) →
  resolvable s file range →
  ∃ l, getComment symbol kind config s =
         (Returned (applicable symbol (canonical file range config s) l),
          core_state file range config (after_discovery symbol kind s)) ∧
       heap (core_state file range config (after_discovery symbol kind s)) !! l
         = Some (canonical file range config s).
Proof.
  intros Hc Hd Hr.
  destruct (getCommentWithCache_resolvable file range config
              (after_discovery symbol kind s)) as (l & Hcore & Hv & _); [done..|].
  exists l. split; [|exact Hv].
  apply getComment_filtered; [|exact Hv]. by rewrite Hd.
Qed.

Lemma some_isSourceFile_false symbol :
  some_isSourceFile symbol = false ↔
  (declarations symbol = None ∨
   ∃ ds, declarations symbol = Some ds ∧ Forall (λ n, node_kind n ≠ SourceFileKind) ds).
Proof.
  unfold some_isSourceFile. destruct (declarations symbol) as [ds|].
  - split.
    + intros H. right. exists ds. split; [done|].
      induction ds as [|d ds IH]; [constructor|].
      simpl in H. apply orb_false_iff in H as [H1 H2].
      constructor; [|by apply IH].
      unfold isSourceFile in H1. by apply bool_decide_eq_false in H1.
    + intros [?|(ds' & [= <-] & H)]; [done|].
      induction H as [|d ds Hd _ IH]; [done|]. simpl.
      rewrite IH, orb_false_r. unfold isSourceFile. by apply bool_decide_eq_false.
  - split; [by left|done].
Qed.

(** C4 (module attribution).  For a symbol with a whole source unit among
    its declarations and a discovered comment, [getComment] returns an
    object holding that comment exactly when the comment carries the
    [@packageDocumentation] modifier or a [@module] tag, and returns
    nothing exactly when it carries neither. *)
Theorem getComment_module_attribution symbol kind config s file range ws :
  cache_closed s →
  some_isSourceFile symbol = true →
  discoverComment symbol kind = (Some (file, range), ws) →
  resolvable s file range →
  ∃ l res s1,
    getComment symbol kind config s = (Returned res, s1) ∧
    heap s1 !! l = Some (canonical file range config s) ∧
    (res = Some l ↔ module_marked (canonical file range config s)) ∧
    (res = None ↔ ¬ module_marked (canonical file range config s)).
Proof.
  intros Hc Hm Hd Hr.
  destruct (getComment_resolvable symbol kind config s file range ws)
    as (l & Hg & Hv); [done..|].
  exists l. eexists. eexists. split; [exact Hg|]. split; [exact Hv|].
  unfold applicable. rewrite Hm. rewrite <- is_module_comment_marked.
  destruct (is_module_comment (canonical file range config s)); split; split;
    try done; intros H; by destruct H.
Qed.

(** C5 (cross attribution).  For a symbol without a whole source unit
    among its declarations, a discovered comment that carries the
    [@packageDocumentation] modifier or a [@module] tag is discarded.
    Whenever a comment was found exactly one of the two checks of the
    filter applies, and the two never apply together. *)
Theorem getComment_cross_attribution symbol kind config s file range ws :
  cache_closed s →
  some_isSourceFile symbol = false →
  discoverComment symbol kind = (Some (file, range), ws) →
  resolvable s file range →
  module_marked (canonical file range config s) →
  (∃ s1, getComment symbol kind config s = (Returned None, s1)) ∧
  (∀ (sym : Symbol) (comment : option loc), is_Some comment →
     xorb (module_check_applies sym comment) (non_module_check_applies sym comment) = true) ∧
  (∀ (sym : Symbol) (comment : option loc),
     ¬ (module_check_applies sym comment = true ∧
        non_module_check_applies sym comment = true)).
Proof.
  intros Hc Hm Hd Hr Hmark. split; [|split].
  - destruct (getComment_resolvable symbol kind config s file range ws)
      as (l & Hg & Hv); [done..|].
    eexists. rewrite Hg. unfold applicable. rewrite Hm.
    apply is_module_comment_marked in Hmark. by rewrite Hmark.
  - intros sym comment Hsome. unfold module_check_applies, non_module_check_applies.
    case_bool_decide; [|done]. by destruct (some_isSourceFile sym).
  - intros sym comment. unfold module_check_applies, non_module_check_applies.
    destruct (some_isSourceFile sym); simpl; intros [? ?]; done.
Qed.

(** C10 (symbols without a source unit declaration).  When the
    declarations of a symbol are absent, or none of them is a whole
    source unit, the module check is skipped, the non-module check
    applies to any comment found, and a discovered comment carrying
    [@packageDocumentation] or [@module] is discarded. *)
Theorem getComment_without_source_file_declaration symbol kind config s file range ws :
  cache_closed s →
  (declarations symbol = None ∨
   ∃ ds, declarations symbol = Some ds ∧ Forall (λ n, node_kind n ≠ SourceFileKind) ds) →
  discoverComment symbol kind = (Some (file, range), ws) →
  resolvable s file range →
  module_marked (canonical file range config s) →
  (∀ comment, module_check_applies symbol comment = false) ∧
  (∀ l : loc, non_module_check_applies symbol (Some l) = true) ∧
  ∃ s1, getComment symbol kind config s = (Returned None, s1).
Proof.
  intros Hc Hdecl Hd Hr Hmark. apply some_isSourceFile_false in Hdecl.
  split; [|split].
  - intros comment. unfold module_check_applies. by rewrite Hdecl.
  - intros l. unfold non_module_check_applies. rewrite Hdecl.
    case_bool_decide as Hl; [done|]. destruct Hl. by eexists.
  - destruct (getComment_resolvable symbol kind config s file range ws)
      as (l & Hg & Hv); [done..|].
    eexists. rewrite Hg. unfold applicable. rewrite Hdecl.
    apply is_module_comment_marked in Hmark. by rewrite Hmark.
Qed.

(** ** Sub-tag extraction *)

Lemma getJsDocComment_block declaration config s parent :
  cache_closed s →
  enclosing_JSDoc (decl_ancestors declaration) = Some parent →
  getJsDocComment declaration config s =
  extracted declaration
    (canonical (decl_sourceFile declaration) (block_range parent) config s)
    (core_state (decl_sourceFile declaration) (block_range parent) config s).
Proof.
  intros Hc Hp.
  destruct (getCommentWithCache_resolvable (decl_sourceFile declaration)
              (block_range parent) config s) as (l & Hcore & Hv & _);
    [done|by left|].
  by eapply getJsDocComment_extracted.
Qed.

(** C6 (missing tag).  When a target name is determined and the parsed
    block has no tag with that name and the tag-name token of the
    declaration, [getJsDocComment] reports the bug-report error to the
    logger and returns nothing.  Nothing is thrown, and the cache is the
    one the shared core left: what was cached before is still cached
    with the same value. *)
Theorem getJsDocComment_missing_tag declaration config s parent name :
  let file := decl_sourceFile declaration in
  let block := canonical file (block_range parent) config s in
  let s1 := core_state file (block_range parent) config s in
  cache_closed s →
  enclosing_JSDoc (decl_ancestors declaration) = Some parent →
  is_ambiguous_template declaration = false →
  (target_name declaration s1).1 = Returned (Some name) →
  name ≠ EmptyString →
  getIdentifiedTag block name ("@" +:+ decl_tagName declaration) = None →
  ∃ s2,
    getJsDocComment declaration config s = (Returned None, s2) ∧
    logged s2 = logged s1 ++ [missing_tag_error declaration name] ∧
    commentCache s2 = commentCache s1 ∧
    heap s2 = heap s1 ∧
    (∀ fid p v, cache_value s fid p = Some v → cache_value s2 fid p = Some v) ∧
    cache_value s2 (file_id file) (node_pos parent) = Some block.
Proof.
  intros file block s1 Hc Hp Hamb Hname Hne Htag.
  exists (add_log (missing_tag_error declaration name) s1).
  split; [|split; [done|split; [done|split; [done|split]]]].
  - rewrite (getJsDocComment_block _ _ _ parent) by done.
    fold file. fold block. fold s1. unfold extracted.
    rewrite Hamb. unfold target_name in *.
    destruct (decl_shape declaration) as [n|[n|]|[n|]|[|n tps]|]; simpl in *;
      try discriminate;
      injection Hname as ->; rewrite bool_decide_false by done; by rewrite Htag.
  - intros fid p v Hv.
    by apply (core_state_cache_value file (block_range parent) config s fid p v).
  - destruct (getCommentWithCache_resolvable file (block_range parent) config s)
      as (l & _ & _ & Hcv & _); [done|by left|]. exact Hcv.
Qed.

(** C7 (template tags).  A template tag with an inline comment and more
    than one type parameter yields nothing, and the extractor logs one
    warning for it after the shared core has resolved the block: that
    warning is the only entry the call logs when the block is already
    cached or the parser has nothing to report on it.  Without an inline
    comment the target name is the name of the first type parameter, and
    the tag is looked up under it. *)
Theorem getJsDocComment_template declaration config s parent typeParameters :
  let file := decl_sourceFile declaration in
  let block := canonical file (block_range parent) config s in
  let s1 := core_state file (block_range parent) config s in
  cache_closed s →
  enclosing_JSDoc (decl_ancestors declaration) = Some parent →
  decl_shape declaration = JSDocTemplateTag typeParameters →
  (truthy_text (decl_comment declaration) = true →
   (1 < length typeParameters)%nat →
   ∃ s2, getJsDocComment declaration config s = (Returned None, s2) ∧
         logged s2 = logged s1 ++ [multiple_template_warning declaration] ∧
         (is_Some (cache_loc s (file_id file) (node_pos parent)) ∨
          (parse_block file (block_range parent) config).2 = [] →
          logged s2 = logged s ++ [multiple_template_warning declaration])) ∧
  (truthy_text (decl_comment declaration) = false →
   ∀ first rest, typeParameters = first :: rest →
     target_name declaration s1 = (Returned (Some first), s1) ∧
     (first ≠ EmptyString →
      getJsDocComment declaration config s =
      match getIdentifiedTag block first ("@" +:+ decl_tagName declaration) with
      | Some tag =>
        (Returned (Some (length (heap s1))),
         add_object (Comment_new (Some (tag_content tag))) s1)
      | None => (Returned None, add_log (missing_tag_error declaration first) s1)
      end)).
Proof.
  intros file block s1 Hc Hp Hs. split.
  - intros Hcm Hlen.
    exists (add_log (multiple_template_warning declaration) s1).
    split; [|split; [done|]].
    + rewrite (getJsDocComment_block _ _ _ parent) by done.
      unfold extracted, is_ambiguous_template. rewrite Hs, Hcm.
      by rewrite bool_decide_true by done.
    + intros Hquiet. simpl. f_equal.
      pose proof (core_state_effects file (block_range parent) config s Hc eq_refl) as He.
      simpl in He.
      destruct (cache_loc s (file_id file) (node_pos parent)) as [l|].
      * apply He.
      * destruct Hquiet as [[? [=]]|Hquiet]. destruct He as [He _].
        fold s1 in He. rewrite He, Hquiet. simpl. by rewrite app_nil_r.
  - intros Hcm first rest ->. split.
    + unfold target_name. by rewrite Hs.
    + intros Hne. rewrite (getJsDocComment_block _ _ _ parent) by done.
      unfold extracted, is_ambiguous_template, target_name. rewrite Hs, Hcm. simpl.
      by rewrite bool_decide_false by done.
Qed.

(** One enum-member extraction. *)
Lemma getJsDocComment_enum declaration config s parent :
  let file := decl_sourceFile declaration in
  let block := canonical file (block_range parent) config s in
  let s1 := core_state file (block_range parent) config s in
  cache_closed s →
  enclosing_JSDoc (decl_ancestors declaration) = Some parent →
  decl_shape declaration = JSDocEnumTag →
  getJsDocComment declaration config s =
  (Returned (Some (length (heap s1))),
   add_object (Comment_new (tag_content <$> getTag block "@enum")) s1).
Proof.
  intros file block s1 Hc Hp Hs.
  rewrite (getJsDocComment_block _ _ _ parent) by done.
  unfold extracted. by rewrite Hs.
Qed.

(** C9 (enum member without an [@enum] tag).  When the parsed block has
    no [@enum] tag, an enum-member extraction still returns a comment,
    an empty one, and logs nothing of its own: the missing-tag error is
    not reported. *)
Theorem getJsDocComment_enum_without_tag declaration config s parent :
  let file := decl_sourceFile declaration in
  let block := canonical file (block_range parent) config s in
  let s1 := core_state file (block_range parent) config s in
  cache_closed s →
  enclosing_JSDoc (decl_ancestors declaration) = Some parent →
  decl_shape declaration = JSDocEnumTag →
  getTag block "@enum" = None →
  ∃ l s2,
    getJsDocComment declaration config s = (Returned (Some l), s2) ∧
    heap s2 !! l = Some {| summary := []; blockTags := []; modifierTags := ∅ |} ∧
    logged s2 = logged s1 ∧
    (∀ e, e ∈ logged s2 → e ∈ logged s ∨ log_level e = Warn).
Proof.
  intros file block s1 Hc Hp Hs Htag.
  eexists. eexists. split; [by apply getJsDocComment_enum|]. fold file block s1.
  rewrite Htag. simpl. split; [apply lookup_new|]. split; [done|].
  pose proof (core_state_effects file (block_range parent) config s Hc eq_refl) as He.
  simpl in He. fold s1 in He. intros e.
  destruct (cache_loc s (file_id file) (node_pos parent)); destruct He as [-> _].
  - by left.
  - rewrite elem_of_app. intros [?|Hin]; [by left|right].
    unfold parser_warnings in Hin. apply list_elem_of_fmap in Hin as (w & -> & _). done.
Qed.

Lemma core_state_heap file range config s :
  cache_closed s → ∃ ext, heap (core_state file range config s) = (heap s ++ ext)%list.
Proof.
  intros Hc. rewrite core_state_resolved.
  destruct (resolved_cases file range config s Hc)
    as [(l & c & Hl & Hv' & ->)|[(Hl & _ & s1 & -> & Hh & _)|(Hl & Hk' & ->)]]; simpl.
  - by eexists.
  - by eexists.
  - exists []. by rewrite app_nil_r.
Qed.

Lemma canonical_add_object file range config c s :
  cache_closed s →
  canonical file range config (add_object c s) = canonical file range config s.
Proof.
  intros Hc. unfold canonical, cache_value, cache_loc. simpl.
  destruct (commentCache s !! file_id file ≫= λ m : gmap Z nat, m !! range_pos range)
    as [l|] eqn:Hl; simpl; [|done].
  rewrite lookup_app_l; [done|]. by apply (Hc (file_id file) (range_pos range)).
Qed.

Lemma canonical_core_state file range config s :
  cache_closed s → resolvable s file range →
  canonical file range config (core_state file range config s)
  = canonical file range config s.
Proof.
  intros Hc Hr.
  destruct (getCommentWithCache_resolvable file range config s)
    as (l & _ & _ & Hcv & _); [done..|].
  unfold canonical at 1. by rewrite Hcv.
Qed.

(** Enum members of one block, extracted one after the other. *)
Lemma extract_all_enum file parent config declarations :
  ∀ s, wf s →
  Forall (enum_member_of file parent) declarations →
  let block := canonical file (block_range parent) config s in
  ∃ rs s',
    extract_all declarations config s = (Returned rs, s') ∧
    wf s' ∧
    length rs = length declarations ∧
    (∃ ext, heap s' = (heap s ++ ext)%list) ∧
    canonical file (block_range parent) config s' = block ∧
    Forall (λ r, ∃ l, r = Some l ∧ (length (heap s) ≤ l)%nat ∧
              heap s' !! l = Some (Comment_new (tag_content <$> getTag block "@enum"))) rs ∧
    parsed s' =
      (parsed s ++
       match declarations, cache_loc s (file_id file) (node_pos parent) with
       | _ :: _, None => [(file_id file, node_pos parent)]
       | _, _ => []
       end)%list.
Proof.
  induction declarations as [|d ds IH]; intros s Hwf Hall block.
  - exists [], s. simpl.
    split; [done|]. split; [done|]. split; [done|].
    split; [exists []; by rewrite app_nil_r|]. split; [done|].
    split; [constructor|]. by rewrite app_nil_r.
  - apply Forall_cons in Hall as [(Hs & Hf & Hp) Hall].
    pose proof Hwf as [Hc _].
    set (s1 := core_state file (block_range parent) config s).
    set (s2 := add_object (Comment_new (tag_content <$> getTag block "@enum")) s1).
    assert (Hstep : getJsDocComment d config s = (Returned (Some (length (heap s1))), s2)).
    { rewrite (getJsDocComment_enum d config s parent) by done. by rewrite Hf. }
    assert (Hwf1 : wf s1) by (by apply core_state_wf).
    assert (Hwf2 : wf s2) by (by apply wf_add_object).
    assert (Hcan : canonical file (block_range parent) config s2 = block).
    { unfold s2. rewrite canonical_add_object by apply Hwf1.
      apply canonical_core_state; [done|by left]. }
    destruct (core_state_heap file (block_range parent) config s Hc) as [ext1 Hext1].
    fold s1 in Hext1.
    destruct (IH s2 Hwf2 Hall) as (rs & s' & Hrun & Hwf' & Hlen & [ext2 Hext2] & Hcan' & Hrs & Hpa).
    exists (Some (length (heap s1)) :: rs), s'.
    split; [|split; [done|split; [|split; [|split; [|split]]]]].
    + simpl. unfold bind at 1. rewrite Hstep. unfold bind at 1. by rewrite Hrun.
    + simpl. by rewrite Hlen.
    + eexists. rewrite Hext2. simpl. rewrite Hext1. by rewrite <- !app_assoc.
    + by rewrite Hcan', Hcan.
    + constructor.
      * exists (length (heap s1)). split; [done|]. split.
        { rewrite Hext1, length_app. lia. }
        rewrite Hext2. apply lookup_old. simpl. apply lookup_new.
      * rewrite Hcan in Hrs. eapply Forall_impl; [exact Hrs|].
        intros r (l & -> & Hge & Hl). exists l. split; [done|]. split; [|done].
        simpl in Hge. rewrite Hext1, !length_app in Hge. lia.
    + rewrite Hpa. simpl parsed at 1.
      pose proof (core_state_effects file (block_range parent) config s Hc eq_refl) as He.
      simpl in He. fold s1 in He.
      assert (Hcached : is_Some (cache_loc s2 (file_id file) (node_pos parent))).
      { destruct (getCommentWithCache_resolvable file (block_range parent) config s)
          as (l & _ & _ & Hcv & _); [done|by left|].
        fold s1 in Hcv. unfold cache_value in Hcv. simpl in Hcv.
        change (cache_loc s2 (file_id file) (node_pos parent))
          with (cache_loc s1 (file_id file) (node_pos parent)).
        destruct (cache_loc s1 (file_id file) (node_pos parent)); [by eexists|done]. }
      destruct Hcached as [l2 Hl2]. rewrite Hl2.
      replace (match ds with [] | _ => [] end) with (@nil (positive * Z))
        by (by destruct ds).
      rewrite app_nil_r.
      destruct (cache_loc s (file_id file) (node_pos parent)); destruct He as [_ ->];
        [by rewrite app_nil_r|done].
Qed.

(** C8 (enum members share the [@enum] tag).  With an [@enum] tag in the
    parent block, every enum-member extraction returns a new comment
    whose summary is the content of that tag; extracting any number of
    members of the block one after the other gives equal content every
    time and parses the block at most once, and not at all when it is
    already cached. *)
Theorem extract_all_enum_members file parent config declarations s tag :
  wf s →
  Forall (enum_member_of file parent) declarations →
  getTag (canonical file (block_range parent) config s) "@enum" = Some tag →
  ∃ rs s',
    extract_all declarations config s = (Returned rs, s') ∧
    length rs = length declarations ∧
    Forall (λ r, ∃ l, r = Some l ∧ (length (heap s) ≤ l)%nat ∧
              heap s' !! l = Some {| summary := tag_content tag; blockTags := [];
                                     modifierTags := ∅ |}) rs ∧
    (length (parsed s') ≤ S (length (parsed s)))%nat ∧
    (is_Some (cache_loc s (file_id file) (node_pos parent)) → parsed s' = parsed s).
Proof.
  intros Hwf Hall Htag.
  destruct (extract_all_enum file parent config declarations s Hwf Hall)
    as (rs & s' & Hrun & _ & Hlen & _ & _ & Hrs & Hpa).
  exists rs, s'. split; [done|split; [done|split; [|split]]].
  - rewrite Htag in Hrs. exact Hrs.
  - rewrite Hpa, length_app.
    destruct declarations, (cache_loc s (file_id file) (node_pos parent)); simpl; lia.
  - intros [l Hl]. rewrite Hpa, Hl. destruct declarations; by rewrite app_nil_r.
Qed.

(** ** Clone independence *)

Lemma wf_mutate l c s : wf s → wf (mutate l c s).
Proof.
  intros [Hc Hp]. split; [|exact Hp].
  intros fid p l0 Hl0. simpl. rewrite length_insert. by apply (Hc fid p).
Qed.

Lemma cache_value_mutate l c s fid p :
  not_cached s l → cache_value (mutate l c s) fid p = cache_value s fid p.
Proof.
  intros Hn. unfold cache_value.
  change (cache_loc (mutate l c s) fid p) with (cache_loc s fid p).
  destruct (cache_loc s fid p) as [l0|] eqn:Hl0; simpl; [|done].
  apply list_lookup_insert_ne. intros ->. by apply (Hn fid p).
Qed.

Lemma mutate_add_object l c' c s :
  (l < length (heap s))%nat →
  add_object c (mutate l c' s) = mutate l c' (add_object c s).
Proof.
  intros Hl. unfold add_object, mutate; simpl. f_equal.
  symmetry. by apply insert_app_l.
Qed.

(** What the shared core returns is a new object, outside the cache,
    holding the value the cache holds for the key. *)
Lemma resolved_fresh file range config s l s1 :
  cache_closed s →
  resolved file range config s = (Returned (Some l), s1) →
  (length (heap s) ≤ l)%nat ∧ client_owned s1 l ∧
  ∃ c, heap s1 !! l = Some c ∧
       cache_value s1 (file_id file) (range_pos range) = Some c.
Proof.
  intros Hc Hr.
  destruct (resolved_cases file range config s Hc)
    as [(l0 & c & Hl & Hv & E)|[(Hl & Hk & s1' & E & Hh & Hcl & Hlg & Hpa)|(Hl & Hk & E)]];
    rewrite E in Hr; [| |done]; injection Hr as <- <-.
  - split; [done|]. split; [split|].
    + simpl. rewrite length_app. simpl. lia.
    + intros fid p Hx. apply (Hc fid p) in Hx. lia.
    + exists (Comment_clone c). split; [apply lookup_new|].
      unfold cache_value, cache_loc in *. simpl. rewrite Hl. simpl.
      rewrite Comment_clone_id. by apply lookup_old.
  - split; [lia|]. split; [split|].
    + rewrite Hh, length_app. simpl. lia.
    + intros fid p. rewrite Hcl. case_decide; [intros [=]; lia|].
      intros Hx. apply (Hc fid p) in Hx. lia.
    + exists (Comment_clone (parse_block file range config).1).
      rewrite Hh. split; [apply lookup_new2_snd|].
      unfold cache_value. rewrite Hcl, decide_True by done. simpl.
      by rewrite Hh, lookup_new2_fst, Comment_clone_id.
Qed.

(** Objects the cache does not hold stay outside it. *)
Lemma resolved_client_owned file range config s l :
  cache_closed s → client_owned s l →
  client_owned (resolved file range config s).2 l.
Proof.
  intros Hc [Hlt Hn].
  destruct (resolved_cases file range config s Hc)
    as [(l0 & c & Hl & Hv & ->)|[(Hl & Hk & s1' & -> & Hh & Hcl & Hlg & Hpa)|(Hl & Hk & ->)]];
    simpl; [| |done].
  - split; [simpl; rewrite length_app; simpl; lia|]. exact Hn.
  - split; [rewrite Hh, length_app; simpl; lia|].
    intros fid p. rewrite Hcl. case_decide; [intros [=]; lia|]. apply Hn.
Qed.

(** The shared core does not read what a client owns. *)
Lemma resolved_mutate file range config s l c' :
  cache_closed s → client_owned s l →
  resolved file range config (mutate l c' s) =
  ((resolved file range config s).1, mutate l c' (resolved file range config s).2).
Proof.
  intros Hc [Hlt Hn]. unfold resolved.
  change (cache_loc (mutate l c' s) (file_id file) (range_pos range))
    with (cache_loc s (file_id file) (range_pos range)).
  destruct (cache_loc s (file_id file) (range_pos range)) as [l0|] eqn:Hl0.
  - assert (l ≠ l0) by (intros ->; by apply (Hn _ _ Hl0)).
    simpl heap at 1. rewrite list_lookup_insert_ne by done.
    destruct (heap s !! l0) as [c|]; simpl; [|done].
    rewrite length_insert. f_equal. unfold mutate; simpl. f_equal.
    symmetry. by apply insert_app_l.
  - destruct (range_kind range); simpl; [|done].
    rewrite length_insert. f_equal. unfold mutate; simpl. f_equal.
    symmetry. by apply insert_app_l.
Qed.

Lemma getComment_closed symbol kind config s :
  getComment symbol kind config s =
  filtered symbol (getCommentWithCache (discoverComment symbol kind).1 config
                     (after_discovery symbol kind s)).
Proof.
  destruct (getCommentWithCache (discoverComment symbol kind).1 config
              (after_discovery symbol kind s)) as [r s1] eqn:Hcore.
  destruct r as [[l|]|e].
  - simpl. destruct (heap s1 !! l) as [c|] eqn:Hc.
    + by eapply getComment_filtered.
    + unfold getComment. unfold bind at 1. rewrite run_discoverComment_eq.
      unfold bind at 1. rewrite Hcore.
      unfold module_check_applies, non_module_check_applies.
      destruct (some_isSourceFile symbol); case_bool_decide as Hs;
        try (destruct Hs; by eexists); simpl;
        unfold bind, ret, carries_module_marker, comment_hasModifier, bind, read;
        by rewrite Hc.
  - by apply getComment_not_returned.
  - by apply getComment_not_returned.
Qed.

Lemma getCommentWithCache_post discovered config s r s1 :
  wf s →
  getCommentWithCache discovered config s = (r, s1) →
  wf s1 ∧
  ∀ l, r = Returned (Some l) →
    (length (heap s) ≤ l)%nat ∧ client_owned s1 l ∧ is_Some (heap s1 !! l).
Proof.
  intros Hwf Hr. destruct discovered as [[file range]|].
  - rewrite getCommentWithCache_resolved in Hr. split.
    + replace s1 with (resolved file range config s).2 by (by rewrite Hr).
      by apply resolved_wf.
    + intros l ->. destruct (resolved_fresh file range config s l s1)
        as (? & ? & c & Hc & _); [apply Hwf|done|]. by eauto.
  - injection Hr as <- <-. split; [done|]. intros l [=].
Qed.

Lemma getCommentWithCache_owned discovered config s l :
  wf s → client_owned s l →
  client_owned (getCommentWithCache discovered config s).2 l.
Proof.
  intros Hwf Ho. destruct discovered as [[file range]|]; [|done].
  rewrite getCommentWithCache_resolved. apply resolved_client_owned; [apply Hwf|done].
Qed.

Lemma getCommentWithCache_mutate discovered config s l c' :
  wf s → client_owned s l →
  getCommentWithCache discovered config (mutate l c' s) =
  ((getCommentWithCache discovered config s).1,
   mutate l c' (getCommentWithCache discovered config s).2).
Proof.
  intros Hwf Ho. destruct discovered as [[file range]|]; [|done].
  rewrite !getCommentWithCache_resolved. apply resolved_mutate; [apply Hwf|done].
Qed.

Lemma extracted_mutate declaration c s l c' :
  (l < length (heap s))%nat →
  extracted declaration c (mutate l c' s) =
  ((extracted declaration c s).1, mutate l c' (extracted declaration c s).2).
Proof.
  intros Hl. unfold extracted, target_name.
  destruct (decl_shape declaration) as [n|[n|]|[n|]|[|n tps]|];
    destruct (is_ambiguous_template declaration); simpl; try done;
    try (case_bool_decide; [done|]);
    try (destruct (getIdentifiedTag _ _ _); simpl);
    try done;
    rewrite length_insert; f_equal; by apply mutate_add_object.
Qed.

Lemma extracted_post declaration c s r s1 :
  wf s →
  extracted declaration c s = (r, s1) →
  wf s1 ∧
  (∀ l, client_owned s l → client_owned s1 l) ∧
  ∀ l, r = Returned (Some l) →
    (length (heap s) ≤ l)%nat ∧ client_owned s1 l ∧ is_Some (heap s1 !! l).
Proof.
  intros Hwf. pose proof Hwf as [Hc _].
  assert (Hobj : ∀ c0,
    wf (add_object c0 s) ∧
    (∀ l, client_owned s l → client_owned (add_object c0 s) l) ∧
    ∀ l, Returned (Some (length (heap s))) = Returned (Some l) →
      (length (heap s) ≤ l)%nat ∧ client_owned (add_object c0 s) l
      ∧ is_Some (heap (add_object c0 s) !! l)).
  { intros c0. split; [by apply wf_add_object|]. split.
    - intros l [Hlt Hn]. split; [simpl; rewrite length_app; simpl; lia|exact Hn].
    - intros l [= <-]. split; [done|]. split; [split|].
      + simpl; rewrite length_app; simpl; lia.
      + intros fid p Hx. apply (Hc fid p) in Hx. lia.
      + simpl. rewrite lookup_new. by eexists. }
  assert (Hlog : ∀ e,
    wf (add_log e s) ∧ (∀ l, client_owned s l → client_owned (add_log e s) l) ∧
    ∀ l, @Returned (option nat) None = Returned (Some l) →
      (length (heap s) ≤ l)%nat ∧ client_owned (add_log e s) l
      ∧ is_Some (heap (add_log e s) !! l)).
  { intros e. split; [by apply wf_add_log|]. split; [done|]. intros l [=]. }
  assert (Hsame : ∀ r0 : Result (option nat), (∀ l, r0 ≠ Returned (Some l)) →
    wf s ∧ (∀ l, client_owned s l → client_owned s l) ∧
    ∀ l, r0 = Returned (Some l) →
      (length (heap s) ≤ l)%nat ∧ client_owned s l ∧ is_Some (heap s !! l)).
  { intros r0 Hr0. split; [done|]. split; [done|]. intros l ->. by destruct (Hr0 l). }
  unfold extracted, target_name.
  destruct (decl_shape declaration) as [n|[n|]|[n|]|[|n tps]|];
    destruct (is_ambiguous_template declaration); simpl;
    try (case_bool_decide);
    try (destruct (getIdentifiedTag _ _ _); simpl);
    intros [= <- <-]; first [apply Hobj | apply Hlog | by apply Hsame].
Qed.

Lemma wf_after_discovery symbol kind s : wf s → wf (after_discovery symbol kind s).
Proof. intros [Hc Hp]. split; [exact Hc|exact Hp]. Qed.

Lemma canonical_mutate file range config s l c' :
  not_cached s l →
  canonical file range config (mutate l c' s) = canonical file range config s.
Proof. intros Hn. unfold canonical. by rewrite cache_value_mutate. Qed.

(** Every entry point keeps the state well formed, leaves client objects
    to the client, and returns a new object outside the cache. *)
Lemma run_entry_post call config s r s1 :
  wf s →
  run_entry call config s = (r, s1) →
  wf s1 ∧
  (∀ l, client_owned s l → client_owned s1 l) ∧
  ∀ l, r = Returned (Some l) →
    (length (heap s) ≤ l)%nat ∧ client_owned s1 l ∧ is_Some (heap s1 !! l).
Proof.
  intros Hwf. destruct call as [symbol kind|declaration|declaration]; simpl.
  - rewrite getComment_closed.
    pose proof (wf_after_discovery symbol kind s Hwf) as Hwf0.
    destruct (getCommentWithCache (discoverComment symbol kind).1 config
                (after_discovery symbol kind s)) as [r0 s0] eqn:Hcore.
    destruct (getCommentWithCache_post _ _ _ _ _ Hwf0 Hcore) as [Hwf1 Hres].
    assert (Hown : ∀ l, client_owned s l → client_owned s0 l).
    { intros l Ho.
      replace s0 with (getCommentWithCache (discoverComment symbol kind).1 config
                         (after_discovery symbol kind s)).2 by (by rewrite Hcore).
      by apply getCommentWithCache_owned. }
    destruct r0 as [[l0|]|e]; simpl.
    + destruct (Hres l0 eq_refl) as (Hge & Ho & [c Hc]). rewrite Hc.
      intros [= <- <-]. split; [done|]. split; [done|].
      unfold applicable. intros l Hl.
      destruct (some_isSourceFile symbol), (is_module_comment c);
        try discriminate; injection Hl as <-; eauto.
    + intros [= <- <-]. split; [done|]. split; [done|]. intros l [=].
    + intros [= <- <-]. split; [done|]. split; [done|]. intros l [=].
  - unfold getSignatureComment. intros Hcore.
    destruct (getCommentWithCache_post _ _ _ _ _ Hwf Hcore) as [Hwf1 Hres].
    split; [done|]. split; [|done]. intros l Ho.
    replace s1 with (getCommentWithCache (discoverSignatureComment declaration)
                       config s).2 by (by rewrite Hcore).
    by apply getCommentWithCache_owned.
  - destruct (enclosing_JSDoc (decl_ancestors declaration)) as [parent|] eqn:Hp.
    + rewrite (getJsDocComment_block _ _ _ parent) by (done || apply Hwf).
      intros Hex.
      destruct (extracted_post _ _ _ _ _
                  (core_state_wf (decl_sourceFile declaration) (block_range parent)
                     config s Hwf) Hex) as (Hwf1 & Hown & Hres).
      destruct (core_state_heap (decl_sourceFile declaration) (block_range parent)
                  config s (proj1 Hwf)) as [ext Hext].
      split; [done|]. split.
      * intros l Ho. apply Hown. unfold core_state.
        by apply getCommentWithCache_owned.
      * intros l Hl. destruct (Hres l Hl) as (Hge & ? & ?).
        split; [|done]. rewrite Hext, length_app in Hge. lia.
    + unfold getJsDocComment. rewrite Hp. intros [= <- <-].
      split; [done|]. split; [done|]. intros l [=].
Qed.

(** No entry point reads what a client owns: overwriting a client object
    before a call or after it comes to the same. *)
Lemma run_entry_mutate call config s l c' :
  wf s → client_owned s l →
  run_entry call config (mutate l c' s) =
  ((run_entry call config s).1, mutate l c' (run_entry call config s).2).
Proof.
  intros Hwf Ho. destruct call as [symbol kind|declaration|declaration]; simpl.
  - rewrite !getComment_closed.
    change (after_discovery symbol kind (mutate l c' s))
      with (mutate l c' (after_discovery symbol kind s)).
    pose proof (wf_after_discovery symbol kind s Hwf) as Hwf0.
    rewrite getCommentWithCache_mutate by done.
    destruct (getCommentWithCache (discoverComment symbol kind).1 config
                (after_discovery symbol kind s)) as [r0 s0] eqn:Hcore.
    destruct (getCommentWithCache_post _ _ _ _ _ Hwf0 Hcore) as [Hwf1 Hres].
    destruct r0 as [[l0|]|e]; simpl; [|done..].
    destruct (Hres l0 eq_refl) as (Hge & _ & [c Hc]).
    rewrite list_lookup_insert_ne by (destruct Ho as [Hlt _]; simpl in Hge; lia).
    by rewrite Hc.
  - unfold getSignatureComment. by apply getCommentWithCache_mutate.
  - destruct (enclosing_JSDoc (decl_ancestors declaration)) as [parent|] eqn:Hp.
    + rewrite !(getJsDocComment_block _ _ _ parent)
        by (done || apply Hwf || apply wf_mutate, Hwf).
      rewrite canonical_mutate by apply Ho.
      pose proof (getCommentWithCache_owned
        (Some (decl_sourceFile declaration, block_range parent)) config s l Hwf Ho)
        as [Hlt _].
      unfold core_state. rewrite getCommentWithCache_mutate by done.
      cbv beta iota delta [snd]. by apply extracted_mutate.
    + unfold getJsDocComment. by rewrite Hp.
Qed.

Lemma wf_initial_state : wf initial_state.
Proof.
  split; [|split].
  - intros fid p l. unfold cache_loc. simpl. by rewrite lookup_empty.
  - constructor.
  - intros fid p Hin. by apply elem_of_nil in Hin.
Qed.

Lemma client_owned_mutate s l l0 c : client_owned s l → client_owned (mutate l0 c s) l.
Proof. intros [Hlt Hn]. split; [simpl; by rewrite length_insert|exact Hn]. Qed.

(** Throughout a run the state is well formed and nothing a client
    holds is held by the cache. *)
Lemma reachable_invariant s owned :
  reachable s owned → wf s ∧ Forall (client_owned s) owned.
Proof.
  induction 1 as [|s owned call config r s1 _ [Hwf Hown] Hrun
                  |s owned l c _ [Hwf Hown] Hin].
  - split; [apply wf_initial_state|constructor].
  - destruct (run_entry_post call config s r s1 Hwf Hrun) as (Hwf1 & Hkeep & Hres).
    split; [done|]. apply Forall_app. split.
    + destruct r as [[l|]|e]; simpl; try constructor; [|constructor].
      by destruct (Hres l eq_refl) as (_ & ? & _).
    + eapply Forall_impl; [exact Hown|]. intros l. apply Hkeep.
  - split; [by apply wf_mutate|].
    eapply Forall_impl; [exact Hown|]. intros l0. apply client_owned_mutate.
Qed.

(** C1 (idempotent parsing).  At any point of a run, resolving the same
    source unit and range twice calls the parser at most once: the
    second resolution adds nothing to the record of parses, the two
    results are equal as values, and no key appears twice in the record
    of parses.  On a range the core can resolve both calls return a
    comment: two different new objects, each holding the canonical value
    stored in the cache under the file and the start offset, which the
    second call reads from the cache and leaves in place.  On any other
    range, an uncached line comment, both calls fail alike and change
    nothing. *)
Theorem getCommentWithCache_idempotent file range config s owned r1 s1 r2 s2 :
  reachable s owned →
  getCommentWithCache (Some (file, range)) config s = (r1, s1) →
  getCommentWithCache (Some (file, range)) config s1 = (r2, s2) →
  parsed s2 = parsed s1 ∧
  view s2 r2 = view s1 r1 ∧
  (length (parsed s2) ≤ S (length (parsed s)))%nat ∧
  NoDup (parsed s2) ∧
  (resolvable s file range →
   ∃ l1 l2 c,
     r1 = Returned (Some l1) ∧ r2 = Returned (Some l2) ∧ l1 ≠ l2 ∧
     c = canonical file range config s ∧
     cache_value s1 (file_id file) (range_pos range) = Some c ∧
     cache_value s2 (file_id file) (range_pos range) = Some c ∧
     heap s1 !! l1 = Some c ∧
     heap s2 !! l1 = Some c ∧
     heap s2 !! l2 = Some c ∧
     commentCache s2 = commentCache s1 ∧
     logged s2 = logged s1) ∧
  (¬ resolvable s file range →
   r1 = Thrown (ThrownString "GERRIT FIX ME") ∧
   r2 = Thrown (ThrownString "GERRIT FIX ME") ∧
   s1 = s ∧ s2 = s).
Proof.
  intros Hreach H1 H2. apply reachable_invariant in Hreach as [Hwf _].
  destruct (getCommentWithCache_twice file range config s r1 s1 r2 s2 Hwf H1 H2)
    as (Hpa & Hnd & Hview & Hlen).
  split; [done|]. split; [done|]. split; [done|]. split; [done|]. split.
  - intros Hr.
    destruct (getCommentWithCache_resolvable file range config s (proj1 Hwf) Hr)
      as (l1 & Hcore & Hv1 & Hcv1 & Hge1).
    rewrite Hcore in H1. injection H1 as <- <-.
    set (s1 := core_state file range config s) in *.
    set (c := canonical file range config s) in *.
    assert (Hwf1 : wf s1) by (by apply core_state_wf).
    rewrite getCommentWithCache_resolved in H2.
    destruct (resolved_cases file range config s1 (proj1 Hwf1))
      as [(l0 & c0 & Hl0 & Hv0 & E)|[(Hl0 & _)|(Hl0 & _)]].
    + rewrite E in H2. injection H2 as <- <-.
      assert (c0 = c) as ->.
      { unfold cache_value in Hcv1. rewrite Hl0 in Hcv1. simpl in Hcv1. congruence. }
      exists l1, (length (heap s1)), c.
      split; [done|]. split; [done|].
      split; [apply lookup_lt_Some in Hv1; lia|]. split; [done|]. split; [done|].
      split.
      { unfold cache_value in *.
        change (cache_loc (add_object (Comment_clone c) s1) (file_id file) (range_pos range))
          with (cache_loc s1 (file_id file) (range_pos range)).
        rewrite Hl0 in *. simpl in *. by apply lookup_old. }
      split; [done|]. split; [by apply lookup_old|].
      split; [simpl; by rewrite lookup_new, Comment_clone_id|]. done.
    + unfold cache_value in Hcv1. by rewrite Hl0 in Hcv1.
    + unfold cache_value in Hcv1. by rewrite Hl0 in Hcv1.
  - intros Hn.
    assert (Hk : range_kind range = SingleLineCommentTrivia).
    { destruct (range_kind range) eqn:Hk; [|done]. destruct Hn. by left. }
    assert (Hl : cache_loc s (file_id file) (range_pos range) = None).
    { destruct (cache_loc s (file_id file) (range_pos range)) eqn:Hl; [|done].
      destruct Hn. right. by eexists. }
    rewrite getCommentWithCache_resolved in H1. unfold resolved in H1.
    rewrite Hl, Hk in H1. injection H1 as <- <-.
    rewrite getCommentWithCache_resolved in H2. unfold resolved in H2.
    rewrite Hl, Hk in H2. by injection H2 as <- <-.
Qed.

(** What [getComment] and [getSignatureComment] return holds the value
    the cache holds for the resolved key. *)
Lemma run_entry_canonical call config s l s1 fid p :
  wf s →
  run_entry call config s = (Returned (Some l), s1) →
  entry_key call = Some (fid, p) →
  heap s1 !! l = cache_value s1 fid p.
Proof.
  intros Hwf. destruct call as [symbol kind|declaration|declaration]; simpl; [| |done].
  - rewrite getComment_closed.
    destruct (discoverComment symbol kind).1 as [[file range]|]; [|done].
    rewrite getCommentWithCache_resolved.
    destruct (resolved file range config (after_discovery symbol kind s))
      as [r0 s0] eqn:Hcore.
    destruct r0 as [[l0|]|e]; simpl; [|done..].
    destruct (resolved_fresh file range config _ l0 s0
                (proj1 (wf_after_discovery symbol kind s Hwf)) Hcore)
      as (_ & _ & c & Hc & Hcv).
    rewrite Hc. unfold applicable. intros Hres [= <- <-].
    destruct (some_isSourceFile symbol), (is_module_comment c);
      simplify_eq; congruence.
  - unfold getSignatureComment.
    destruct (discoverSignatureComment declaration) as [[file range]|]; [|done].
    rewrite getCommentWithCache_resolved. intros Hcore [= <- <-].
    destruct (resolved_fresh file range config s l s1 (proj1 Hwf) Hcore)
      as (_ & _ & c & Hc & Hcv).
    congruence.
Qed.

(** C2 (clone independence).  The object an entry point returns is a new
    one and the cache does not hold it; when the call returns what the
    shared core resolved, on a hit as on a miss, the object holds the
    value the cache holds for the key.  Overwriting the object changes
    neither the cache nor any cached value, and every later call of an
    entry point returns what it would have returned without the
    overwrite. *)
Theorem run_entry_clone_independence call config s l s1 :
  wf s →
  run_entry call config s = (Returned (Some l), s1) →
  (length (heap s) ≤ l)%nat ∧ is_Some (heap s1 !! l) ∧ not_cached s1 l ∧
  (∀ fid p, entry_key call = Some (fid, p) → heap s1 !! l = cache_value s1 fid p) ∧
  ∀ c',
    commentCache (mutate l c' s1) = commentCache s1 ∧
    (∀ fid p, cache_value (mutate l c' s1) fid p = cache_value s1 fid p) ∧
    ∀ call2 config2 r2 s2,
      run_entry call2 config2 s1 = (r2, s2) →
      ∃ s2', run_entry call2 config2 (mutate l c' s1) = (r2, s2') ∧
             view s2' r2 = view s2 r2 ∧
             ∀ fid p, cache_value s2' fid p = cache_value s2 fid p.
Proof.
  intros Hwf Hrun.
  destruct (run_entry_post call config s _ s1 Hwf Hrun) as (Hwf1 & _ & Hres).
  destruct (Hres l eq_refl) as (Hge & Ho & Hsome).
  split; [done|]. split; [done|]. split; [apply Ho|].
  split; [intros fid p; by apply (run_entry_canonical call config s)|].
  intros c'. split; [done|]. split; [intros; apply cache_value_mutate, Ho|].
  intros call2 config2 r2 s2 Hrun2.
  exists (mutate l c' s2). split.
  - rewrite run_entry_mutate by done. by rewrite Hrun2.
  - destruct (run_entry_post call2 config2 s1 r2 s2 Hwf1 Hrun2) as (_ & Hkeep & Hres2).
    split.
    + destruct r2 as [[l2|]|e]; simpl; try done.
      destruct (Hres2 l2 eq_refl) as (Hge2 & _ & _).
      rewrite list_lookup_insert_ne; [done|]. destruct Ho as [Hlt _]. lia.
    + intros fid p. apply cache_value_mutate. by apply Hkeep.
Qed.

(** ** Further properties of the engine *)

(** The shared core only adds: objects, log entries, parses, cache keys. *)
Lemma resolved_grows file range config s :
  cache_closed s →
  let s1 := (resolved file range config s).2 in
  heap s `prefix_of` heap s1 ∧
  logged s `prefix_of` logged s1 ∧
  parsed s `prefix_of` parsed s1 ∧
  ∀ fid p l, cache_loc s fid p = Some l → cache_loc s1 fid p = Some l.
Proof.
  intros Hc.
  destruct (resolved_cases file range config s Hc)
    as [(l0 & c & Hl & Hv & ->)|[(Hl & Hk & s1' & -> & Hh & Hcl & Hlg & Hpa)|(Hl & Hk & ->)]];
    simpl.
  - split; [by apply prefix_app_r|]. done.
  - rewrite Hh, Hlg, Hpa. repeat split; try by apply prefix_app_r.
    intros fid p l Hx. rewrite Hcl. rewrite decide_False; [done|].
    intros [-> ->]. congruence.
  - done.
Qed.

Lemma extracted_grows declaration c s :
  let s1 := (extracted declaration c s).2 in
  heap s `prefix_of` heap s1 ∧
  logged s `prefix_of` logged s1 ∧
  parsed s1 = parsed s ∧
  commentCache s1 = commentCache s.
Proof.
  unfold extracted, target_name.
  destruct (decl_shape declaration) as [n|[n|]|[n|]|[|n tps]|];
    destruct (is_ambiguous_template declaration); simpl;
    try (case_bool_decide);
    try (destruct (getIdentifiedTag _ _ _); simpl);
    repeat split; try done; by apply prefix_app_r.
Qed.

(** How an entry point changes the cache and the record of parses:
    not at all, or by one new key. *)
Lemma run_entry_cache_step call config s r s1 :
  cache_closed s →
  run_entry call config s = (r, s1) →
  (commentCache s1 = commentCache s ∧ parsed s1 = parsed s) ∨
  ∃ fid p,
    cache_loc s fid p = None ∧
    parsed s1 = (parsed s ++ [(fid, p)])%list ∧
    ∀ fid' p', cache_loc s1 fid' p' =
      if decide (fid' = fid ∧ p' = p) then Some (length (heap s))
      else cache_loc s fid' p'.
Proof.
  intros Hc.
  assert (Hcore : ∀ file range s0,
    cache_closed s0 →
    let s' := (resolved file range config s0).2 in
    (commentCache s' = commentCache s0 ∧ parsed s' = parsed s0) ∨
    ∃ fid p,
      cache_loc s0 fid p = None ∧
      parsed s' = (parsed s0 ++ [(fid, p)])%list ∧
      ∀ fid' p', cache_loc s' fid' p' =
        if decide (fid' = fid ∧ p' = p) then Some (length (heap s0))
        else cache_loc s0 fid' p').
  { intros file range s0 Hc0.
    destruct (resolved_cases file range config s0 Hc0)
      as [(l0 & c & Hl & Hv & ->)|[(Hl & Hk & s1' & -> & Hh & Hcl & Hlg & Hpa)|(Hl & Hk & ->)]];
      simpl; [by left| |by left].
    right. by exists (file_id file), (range_pos range). }
  destruct call as [symbol kind|declaration|declaration]; simpl.
  - rewrite getComment_closed.
    destruct (discoverComment symbol kind).1 as [[file range]|].
    + rewrite getCommentWithCache_resolved.
      pose proof (Hcore file range (after_discovery symbol kind s) Hc) as Hstep.
      destruct (resolved file range config (after_discovery symbol kind s))
        as [r0 s0] eqn:Hr0. simpl in Hstep.
      destruct r0 as [[l0|]|e]; simpl.
      * destruct (heap s0 !! l0); intros [= <- <-]; exact Hstep.
      * intros [= <- <-]; exact Hstep.
      * intros [= <- <-]; exact Hstep.
    + simpl. intros [= <- <-]. by left.
  - unfold getSignatureComment.
    destruct (discoverSignatureComment declaration) as [[file range]|].
    + rewrite getCommentWithCache_resolved. intros Hr.
      pose proof (Hcore file range s Hc) as Hstep. by rewrite Hr in Hstep.
    + intros [= <- <-]. by left.
  - destruct (enclosing_JSDoc (decl_ancestors declaration)) as [parent|] eqn:Hp.
    + rewrite (getJsDocComment_block _ _ _ parent) by done. intros Hex.
      pose proof (extracted_grows declaration
        (canonical (decl_sourceFile declaration) (block_range parent) config s)
        (core_state (decl_sourceFile declaration) (block_range parent) config s))
        as (_ & _ & Hpa & Hcc).
      rewrite Hex in Hpa, Hcc. simpl in Hpa, Hcc.
      pose proof (Hcore (decl_sourceFile declaration) (block_range parent) s Hc) as Hstep.
      simpl in Hstep. rewrite <- core_state_resolved in Hstep.
      unfold cache_loc in *. rewrite Hpa, Hcc. exact Hstep.
    + unfold getJsDocComment. rewrite Hp. intros [= <- <-]. by left.
Qed.

(** An entry point only adds to the state. *)
Lemma run_entry_grows call config s r s1 :
  wf s →
  run_entry call config s = (r, s1) →
  heap s `prefix_of` heap s1 ∧
  logged s `prefix_of` logged s1 ∧
  parsed s `prefix_of` parsed s1 ∧
  (∀ fid p l, cache_loc s fid p = Some l → cache_loc s1 fid p = Some l) ∧
  (∀ fid p v, cache_value s fid p = Some v → cache_value s1 fid p = Some v).
Proof.
  intros Hwf Hrun. pose proof Hwf as [Hc _].
  assert (Hheap : heap s `prefix_of` heap s1 ∧ logged s `prefix_of` logged s1).
  { destruct call as [symbol kind|declaration|declaration]; simpl in Hrun.
    - rewrite getComment_closed in Hrun.
      assert (Hs1 : s1 = (getCommentWithCache (discoverComment symbol kind).1 config
                            (after_discovery symbol kind s)).2).
      { destruct (getCommentWithCache (discoverComment symbol kind).1 config
                    (after_discovery symbol kind s)) as [[[l0|]|e] s0]; simpl in *;
          [destruct (heap s0 !! l0)|..]; by injection Hrun as _ <-. }
      destruct (discoverComment symbol kind).1 as [[file range]|].
      + rewrite getCommentWithCache_resolved in Hs1.
        destruct (resolved_grows file range config (after_discovery symbol kind s) Hc)
          as (Hh & Hlg & _ & _).
        rewrite <- Hs1 in Hh, Hlg. split; [exact Hh|].
        etrans; [|exact Hlg]. simpl. by apply prefix_app_r.
      + rewrite Hs1. simpl. split; [done|]. by apply prefix_app_r.
    - unfold getSignatureComment in Hrun.
      destruct (discoverSignatureComment declaration) as [[file range]|].
      + rewrite getCommentWithCache_resolved in Hrun.
        destruct (resolved_grows file range config s Hc) as (Hh & Hlg & _ & _).
        by rewrite Hrun in Hh, Hlg.
      + by injection Hrun as _ <-.
    - destruct (enclosing_JSDoc (decl_ancestors declaration)) as [parent|] eqn:Hp.
      + rewrite (getJsDocComment_block _ _ _ parent) in Hrun by done.
        pose proof (extracted_grows declaration
          (canonical (decl_sourceFile declaration) (block_range parent) config s)
          (core_state (decl_sourceFile declaration) (block_range parent) config s))
          as (Hh & Hlg & _ & _).
        rewrite Hrun in Hh, Hlg. simpl in Hh, Hlg.
        destruct (resolved_grows (decl_sourceFile declaration) (block_range parent)
                    config s Hc) as (Hh0 & Hlg0 & _ & _).
        rewrite <- core_state_resolved in Hh0, Hlg0.
        split; etrans; eauto.
      + unfold getJsDocComment in Hrun. rewrite Hp in Hrun. by injection Hrun as _ <-. }
  destruct Hheap as [Hh Hlg].
  assert (Hloc : ∀ fid p l, cache_loc s fid p = Some l → cache_loc s1 fid p = Some l).
  { destruct (run_entry_cache_step call config s r s1 Hc Hrun)
      as [[Hcc _]|(fid0 & p0 & Hnone & _ & Hcl)].
    - intros fid p l. unfold cache_loc. by rewrite Hcc.
    - intros fid p l Hx. rewrite Hcl, decide_False; [done|].
      intros [-> ->]. congruence. }
  split; [done|]. split; [done|]. split.
  { destruct (run_entry_cache_step call config s r s1 Hc Hrun)
      as [[_ ->]|(fid0 & p0 & _ & -> & _)]; [done|by apply prefix_app_r]. }
  split; [done|].
  intros fid p v. unfold cache_value.
  destruct (cache_loc s fid p) as [l|] eqn:Hl; simpl; [|done].
  rewrite (Hloc _ _ _ Hl). simpl. intros Hv.
  by eapply prefix_lookup_Some.
Qed.

(** X3.  A call of an entry point only adds to the state: the objects in
    the store, what was logged and the record of parses are kept as they
    are and extended, and every cached key keeps its reference and its
    value. *)
Theorem run_entry_only_adds call config s r s1 :
  wf s →
  run_entry call config s = (r, s1) →
  heap s `prefix_of` heap s1 ∧
  logged s `prefix_of` logged s1 ∧
  parsed s `prefix_of` parsed s1 ∧
  (∀ fid p l, cache_loc s fid p = Some l → cache_loc s1 fid p = Some l) ∧
  (∀ fid p v, cache_value s fid p = Some v → cache_value s1 fid p = Some v).
Proof. intros Hwf Hrun. by apply (run_entry_grows call config s r s1). Qed.

(** X4.  Over any stretch of a run, calls of the entry points and
    overwrites by clients of the objects they hold, a cached key keeps the
    value it has: nothing is invalidated, replaced or parsed again. *)
Theorem evolves_cache_stable s owned s' owned' :
  wf s →
  Forall (client_owned s) owned →
  evolves s owned s' owned' →
  wf s' ∧
  Forall (client_owned s') owned' ∧
  parsed s `prefix_of` parsed s' ∧
  ∀ fid p v, cache_value s fid p = Some v → cache_value s' fid p = Some v.
Proof.
  intros Hwf Hown Hev.
  induction Hev as [s owned
                   |s owned s1 owned1 call config r s2 _ IH Hrun
                   |s owned s1 owned1 l c _ IH Hin].
  - done.
  - destruct (IH Hwf Hown) as (Hwf1 & Hown1 & Hpa & Hcv).
    destruct (run_entry_post call config s1 r s2 Hwf1 Hrun) as (Hwf2 & Hkeep & Hres).
    destruct (run_entry_grows call config s1 r s2 Hwf1 Hrun)
      as (_ & _ & Hpa2 & _ & Hcv2).
    split; [done|]. split; [|split].
    + apply Forall_app. split.
      * destruct r as [[l|]|e]; simpl; try constructor; [|constructor].
        by destruct (Hres l eq_refl) as (_ & ? & _).
      * eapply Forall_impl; [exact Hown1|]. intros l. apply Hkeep.
    + by etrans.
    + intros fid p v Hv. by apply Hcv2, Hcv.
  - destruct (IH Hwf Hown) as (Hwf1 & Hown1 & Hpa & Hcv).
    split; [by apply wf_mutate|]. split; [|split; [done|]].
    + eapply Forall_impl; [exact Hown1|]. intros l0. apply client_owned_mutate.
    + intros fid p v Hv. rewrite cache_value_mutate; [by apply Hcv|].
      rewrite Forall_forall in Hown1. by apply Hown1.
Qed.

(** X5.  Throughout a run the cache holds exactly the keys the parser was
    called for. *)
Theorem reachable_cached_iff_parsed s owned :
  reachable s owned →
  ∀ fid p, is_Some (cache_loc s fid p) ↔ (fid, p) ∈ parsed s.
Proof.
  intros Hreach.
  induction Hreach as [|s owned call config r s1 Hreach IH Hrun
                       |s owned l c Hreach IH Hin]; intros fid p.
  - unfold cache_loc. simpl. rewrite lookup_empty. simpl.
    split; [by intros [? ?]|]. intros Hin. by apply elem_of_nil in Hin.
  - destruct (reachable_invariant s owned Hreach) as [[Hc _] _].
    destruct (run_entry_cache_step call config s r s1 Hc Hrun)
      as [[Hcc Hpa]|(fid0 & p0 & Hnone & Hpa & Hcl)].
    + unfold cache_loc in *. rewrite Hcc, Hpa. apply IH.
    + rewrite Hcl, Hpa, elem_of_app, list_elem_of_singleton.
      case_decide as Hk.
      * destruct Hk as [-> ->]. split; [by right|by eexists].
      * rewrite IH. split; [by left|].
        intros [?|[= -> ->]]; [done|]. by destruct Hk.
  - apply IH.
Qed.

(** X1.  On a miss for a block comment the shared core returns a new
    object holding the comment the parser builds from the lexed text of
    the range, stores that comment under the file and the start offset,
    logs each warning of the parser once, in order, with the file and the
    one-based line, and records one parse. *)
Theorem getCommentWithCache_miss file range config s :
  cache_loc s (file_id file) (range_pos range) = None →
  range_kind range = MultiLineCommentTrivia →
  let built := parseComment
    (lexBlockComment (file_text file) (range_pos range) (range_end range)) config in
  ∃ l s1,
    getCommentWithCache (Some (file, range)) config s = (Returned (Some l), s1) ∧
    heap s1 !! l = Some built.1 ∧
    cache_value s1 (file_id file) (range_pos range) = Some built.1 ∧
    cache_loc s1 (file_id file) (range_pos range) ≠ Some l ∧
    logged s1 = (logged s ++
      map (λ w, {| log_level := Warn;
                   log_message := w +:+ " in comment at " +:+ nicePath (fileName file)
                     +:+ ":" +:+ pretty ((getLineAndCharacterOfPosition file
                                            (range_pos range)).1 + 1) +:+ ".";
                   log_node := None |}) built.2)%list ∧
    parsed s1 = (parsed s ++ [(file_id file, range_pos range)])%list.
Proof.
  intros Hl Hk built. rewrite getCommentWithCache_resolved. unfold resolved.
  rewrite Hl, Hk. eexists. eexists. split; [done|]. simpl.
  fold (parse_block file range config). fold built.
  rewrite lookup_new2_snd, Comment_clone_id. split; [done|].
  unfold cache_value, cache_loc. simpl.
  rewrite (lookup_partition_insert (commentCache s)), decide_True by done. simpl.
  rewrite lookup_new2_fst. split; [done|]. split; [intros [=]; lia|]. done.
Qed.

(** X2.  The cache key is the file and the start offset alone.  Once a
    range is resolved, resolving any range of the same file with the same
    start offset, whatever its kind, its end or the parser configuration,
    returns a new object holding the comment of the first resolution and
    changes nothing else: no parse, no log entry, and no failure even for
    a line-style range. *)
Theorem cache_key_is_file_and_offset file range config range2 config2 s :
  cache_closed s →
  resolvable s file range →
  range_pos range2 = range_pos range →
  let s1 := core_state file range config s in
  getCommentWithCache (Some (file, range2)) config2 s1 =
  (Returned (Some (length (heap s1))), add_object (canonical file range config s) s1).
Proof.
  intros Hc Hr Hpos s1.
  destruct (getCommentWithCache_resolvable file range config s Hc Hr)
    as (l & _ & _ & Hcv & _). fold s1 in Hcv.
  rewrite getCommentWithCache_resolved. unfold resolved. rewrite Hpos.
  unfold cache_value in Hcv.
  destruct (cache_loc s1 (file_id file) (range_pos range)) as [l0|]; [|done].
  simpl in Hcv. rewrite Hcv. by rewrite Comment_clone_id.
Qed.

(** X6.  [getSignatureComment] applies no filter: whatever discovery
    finds and the core can resolve is returned, with or without module
    markers. *)
Theorem getSignatureComment_unfiltered declaration config s file range :
  cache_closed s →
  discoverSignatureComment declaration = Some (file, range) →
  resolvable s file range →
  ∃ l, getSignatureComment declaration config s =
         (Returned (Some l), core_state file range config s) ∧
       heap (core_state file range config s) !! l = Some (canonical file range config s).
Proof.
  intros Hc Hd Hr. unfold getSignatureComment. rewrite Hd.
  destruct (getCommentWithCache_resolvable file range config s Hc Hr)
    as (l & Hcore & Hv & _).
  by exists l.
Qed.

(** X7.  For a symbol without a whole source unit among its declarations,
    [getComment] returns the discovered comment exactly when it carries
    neither the [@packageDocumentation] modifier nor a [@module] tag. *)
Theorem getComment_non_module symbol kind config s file range ws :
  cache_closed s →
  some_isSourceFile symbol = false →
  discoverComment symbol kind = (Some (file, range), ws) →
  resolvable s file range →
  ∃ l res s1,
    getComment symbol kind config s = (Returned res, s1) ∧
    heap s1 !! l = Some (canonical file range config s) ∧
    (res = Some l ↔ ¬ module_marked (canonical file range config s)) ∧
    (res = None ↔ module_marked (canonical file range config s)).
Proof.
  intros Hc Hm Hd Hr.
  destruct (getComment_resolvable symbol kind config s file range ws)
    as (l & Hg & Hv); [done..|].
  exists l. eexists. eexists. split; [exact Hg|]. split; [exact Hv|].
  unfold applicable. rewrite Hm. rewrite <- is_module_comment_marked.
  destruct (is_module_comment (canonical file range config s)); split; split;
    try done; intros H; by destruct H.
Qed.

(** X8.  When discovery finds nothing, [getComment] and
    [getSignatureComment] return nothing and touch neither the store, nor
    the cache, nor the parser. *)
Theorem run_entry_nothing_discovered call config s :
  is_discovery_call call = true →
  entry_discovered call = None →
  ∃ s1, run_entry call config s = (Returned None, s1) ∧
        heap s1 = heap s ∧ commentCache s1 = commentCache s ∧ parsed s1 = parsed s.
Proof.
  intros Hcall Hd. destruct call as [symbol kind|declaration|declaration];
    simpl in *; [| |done].
  - rewrite getComment_closed, Hd. by eexists.
  - unfold getSignatureComment. rewrite Hd. by eexists.
Qed.

(** X9.  A discovered line-style range that is not cached makes
    [getComment] and [getSignatureComment] fail with the string the core
    throws.  The failure leaves store, cache and parse record as they
    were, so calling again fails again. *)
Theorem run_entry_line_comment call config s file range :
  entry_discovered call = Some (file, range) →
  range_kind range = SingleLineCommentTrivia →
  cache_loc s (file_id file) (range_pos range) = None →
  ∃ s1 s2,
    run_entry call config s = (Thrown (ThrownString "GERRIT FIX ME"), s1) ∧
    heap s1 = heap s ∧ commentCache s1 = commentCache s ∧ parsed s1 = parsed s ∧
    run_entry call config s1 = (Thrown (ThrownString "GERRIT FIX ME"), s2).
Proof.
  intros Hd Hk Hl. destruct call as [symbol kind|declaration|declaration];
    simpl in *; [| |done].
  - exists (after_discovery symbol kind s),
           (after_discovery symbol kind (after_discovery symbol kind s)).
    rewrite !getComment_closed, Hd, !getCommentWithCache_resolved.
    unfold resolved.
    change (cache_loc (after_discovery symbol kind (after_discovery symbol kind s)))
      with (cache_loc s).
    change (cache_loc (after_discovery symbol kind s)) with (cache_loc s).
    by rewrite Hl, Hk.
  - exists s, s. unfold getSignatureComment.
    rewrite Hd, getCommentWithCache_resolved. unfold resolved.
    by rewrite Hl, Hk.
Qed.

(** X10.  The failures of the entry points.  [getComment] and
    [getSignatureComment] fail only on a discovered line-style range that
    is not cached, with the string the core throws.  [getJsDocComment]
    fails only with a type error, when the declaration has no JSDoc
    ancestor or is a template tag without type parameters; it never meets
    the line-comment failure.  No call reads a reference outside the
    store. *)
Theorem run_entry_failures call config s e s1 :
  wf s →
  run_entry call config s = (Thrown e, s1) →
  failure_of call config s e s1.
Proof.
  intros Hwf. pose proof Hwf as [Hc _].
  assert (Hcore : ∀ file range s0 s0', cache_closed s0 →
    resolved file range config s0 = (Thrown e, s0') →
    e = ThrownString "GERRIT FIX ME" ∧ s0' = s0 ∧
    range_kind range = SingleLineCommentTrivia ∧
    cache_loc s0 (file_id file) (range_pos range) = None).
  { intros file range s0 s0' Hc0 Hr0.
    destruct (resolved_cases file range config s0 Hc0)
      as [(l0 & c & Hl & Hv & E)|[(Hl & Hk & s1' & E & _)|(Hl & Hk & E)]];
      rewrite E in Hr0; [done|done|]. by injection Hr0 as <- <-. }
  destruct call as [symbol kind|declaration|declaration]; simpl.
  - rewrite getComment_closed.
    destruct (getCommentWithCache (discoverComment symbol kind).1 config
                (after_discovery symbol kind s)) as [r0 s0] eqn:Hr0.
    destruct (getCommentWithCache_post _ _ _ _ _
                (wf_after_discovery symbol kind s Hwf) Hr0) as [_ Hres].
    destruct r0 as [[l0|]|e0]; simpl.
    + destruct (Hres l0 eq_refl) as (_ & _ & [c Hcv]). by rewrite Hcv.
    + done.
    + intros [= -> ->].
      destruct (discoverComment symbol kind).1 as [[file range]|] eqn:Hd; [|done].
      rewrite getCommentWithCache_resolved in Hr0.
      destruct (Hcore file range (after_discovery symbol kind s) _ Hc Hr0)
        as (-> & -> & Hk & Hl).
      split; [done|]. split; [done|]. by exists file, range.
  - unfold getSignatureComment.
    destruct (discoverSignatureComment declaration) as [[file range]|] eqn:Hd; [|done].
    rewrite getCommentWithCache_resolved. intros Hr0.
    destruct (Hcore file range _ _ Hc Hr0) as (-> & -> & Hk & Hl).
    split; [done|]. split; [done|]. by exists file, range.
  - destruct (enclosing_JSDoc (decl_ancestors declaration)) as [parent|] eqn:Hp.
    + rewrite (getJsDocComment_block _ _ _ parent) by done.
      unfold extracted, target_name.
      destruct (decl_shape declaration) as [n|[n|]|[n|]|[|n tps]|];
        destruct (is_ambiguous_template declaration); simpl;
        try (case_bool_decide);
        try (destruct (getIdentifiedTag _ _ _); simpl);
        try done.
      intros [= <- <-]. split; [done|]. right. by exists parent.
    + unfold getJsDocComment. rewrite Hp. intros [= <- <-]. split; [done|]. by left.
Qed.

(** X11.  When the parsed block has a tag with the target name and the
    tag-name token of the declaration, [getJsDocComment] returns a new
    comment built from the content of that tag alone; the extractor logs
    nothing and leaves the cache as the shared core left it. *)
Theorem getJsDocComment_found_tag declaration config s parent name tag :
  let file := decl_sourceFile declaration in
  let block := canonical file (block_range parent) config s in
  let s1 := core_state file (block_range parent) config s in
  cache_closed s →
  enclosing_JSDoc (decl_ancestors declaration) = Some parent →
  is_ambiguous_template declaration = false →
  (target_name declaration s1).1 = Returned (Some name) →
  name ≠ EmptyString →
  getIdentifiedTag block name ("@" +:+ decl_tagName declaration) = Some tag →
  ∃ l s2,
    getJsDocComment declaration config s = (Returned (Some l), s2) ∧
    heap s2 !! l = Some (Comment_new (Some (tag_content tag))) ∧
    (length (heap s) ≤ l)%nat ∧
    logged s2 = logged s1 ∧
    commentCache s2 = commentCache s1.
Proof.
  intros file block s1 Hc Hp Hamb Hname Hne Htag.
  exists (length (heap s1)), (add_object (Comment_new (Some (tag_content tag))) s1).
  split; [|split; [apply lookup_new|split; [|done]]].
  - rewrite (getJsDocComment_block _ _ _ parent) by done.
    fold file. fold block. fold s1. unfold extracted.
    rewrite Hamb. unfold target_name in *.
    destruct (decl_shape declaration) as [n|[n|]|[n|]|[|n tps]|]; simpl in *;
      try discriminate;
      injection Hname as ->; rewrite bool_decide_false by done; by rewrite Htag.
  - destruct (core_state_heap file (block_range parent) config s Hc) as [ext Hext].
    fold s1 in Hext. rewrite Hext, length_app. lia.
Qed.

(** X12.  A callback or typedef tag without a name, or any tag whose name
    is the empty text, yields nothing, and the extractor reports nothing:
    the state is the one the shared core left. *)
Theorem getJsDocComment_no_name declaration config s parent :
  let file := decl_sourceFile declaration in
  let s1 := core_state file (block_range parent) config s in
  cache_closed s →
  enclosing_JSDoc (decl_ancestors declaration) = Some parent →
  decl_shape declaration ≠ JSDocEnumTag →
  is_ambiguous_template declaration = false →
  (target_name declaration s1).1 = Returned None ∨
  (target_name declaration s1).1 = Returned (Some EmptyString) →
  getJsDocComment declaration config s = (Returned None, s1).
Proof.
  intros file s1 Hc Hp Henum Hamb Hname.
  rewrite (getJsDocComment_block _ _ _ parent) by done.
  fold file. fold s1. unfold extracted.
  rewrite Hamb. unfold target_name in *.
  destruct (decl_shape declaration) as [n|[n|]|[n|]|[|n tps]|]; simpl in *;
    try done; destruct Hname as [Hname|Hname]; try discriminate;
    by injection Hname as ->.
Qed.

(** X13.  A template tag without type parameters makes [getJsDocComment]
    fail with a type error when it reads the first parameter; by then the
    enclosing block is resolved and cached. *)
Theorem getJsDocComment_template_without_parameters declaration config s parent :
  let file := decl_sourceFile declaration in
  let s1 := core_state file (block_range parent) config s in
  cache_closed s →
  enclosing_JSDoc (decl_ancestors declaration) = Some parent →
  decl_shape declaration = JSDocTemplateTag [] →
  getJsDocComment declaration config s = (Thrown TypeError, s1) ∧
  cache_value s1 (file_id file) (node_pos parent)
    = Some (canonical file (block_range parent) config s).
Proof.
  intros file s1 Hc Hp Hs. split.
  - rewrite (getJsDocComment_block _ _ _ parent) by done.
    unfold extracted, is_ambiguous_template, target_name. rewrite Hs.
    by rewrite andb_false_r.
  - destruct (getCommentWithCache_resolvable file (block_range parent) config s)
      as (l & _ & _ & Hcv & _); [done|by left|]. exact Hcv.
Qed.

(** X15.  The ancestor walk stops at the nearest JSDoc node: it gives
    [parent] exactly when [parent] is a JSDoc node among the ancestors
    and no ancestor before it is one, and it finds nothing exactly when
    no ancestor is a JSDoc node. *)
Theorem enclosing_JSDoc_nearest ancestors :
  (∀ parent,
     enclosing_JSDoc ancestors = Some parent ↔
     ∃ before after,
       ancestors = (before ++ parent :: after)%list ∧
       isJSDoc parent = true ∧
       Forall (λ n, isJSDoc n = false) before) ∧
  (enclosing_JSDoc ancestors = None ↔ Forall (λ n, isJSDoc n = false) ancestors).
Proof.
  induction ancestors as [|a rest [IHsome IHnone]]; simpl.
  - split.
    + intros parent. split; [done|]. intros (before & after & H & _).
      by destruct before.
    + split; [constructor|done].
  - destruct (isJSDoc a) eqn:Ha.
    + split.
      * intros parent. split.
        -- intros [= <-]. exists [], rest. by repeat split.
        -- intros (before & after & H & Hj & Hb).
           destruct before as [|b before]; simpl in H.
           ++ by injection H as -> _.
           ++ injection H as <- _. apply Forall_cons in Hb as [Hb _]. congruence.
      * split; [done|]. intros H. apply Forall_cons in H as [H _]. congruence.
    + split.
      * intros parent. rewrite IHsome. split.
        -- intros (before & after & -> & Hj & Hb).
           exists (a :: before), after. split; [done|]. split; [done|].
           by constructor.
        -- intros (before & after & H & Hj & Hb).
           destruct before as [|b before]; simpl in H.
           ++ injection H as -> _. congruence.
           ++ injection H as <- ->. apply Forall_cons in Hb as [_ Hb].
              by exists before, after.
      * rewrite IHnone. split; [by constructor|].
        intros H. by apply Forall_cons in H as [_ H].
Qed.

(** X14.  The warning for a template tag with an inline comment and
    several type parameters is logged by every call: extracting twice, as
    for two type parameters of the tag, logs it twice, the second time
    without parsing. *)
Theorem getJsDocComment_warns_on_every_call declaration config s parent typeParameters :
  let file := decl_sourceFile declaration in
  let s1 := core_state file (block_range parent) config s in
  wf s →
  enclosing_JSDoc (decl_ancestors declaration) = Some parent →
  decl_shape declaration = JSDocTemplateTag typeParameters →
  truthy_text (decl_comment declaration) = true →
  (1 < length typeParameters)%nat →
  ∃ s2 s3,
    getJsDocComment declaration config s = (Returned None, s2) ∧
    getJsDocComment declaration config s2 = (Returned None, s3) ∧
    logged s3 = (logged s1 ++ [multiple_template_warning declaration;
                               multiple_template_warning declaration])%list ∧
    parsed s3 = parsed s2.
Proof.
  intros file s1 Hwf Hp Hs Hcm Hlen.
  assert (Hamb : is_ambiguous_template declaration = true).
  { unfold is_ambiguous_template. rewrite Hs, Hcm. by rewrite bool_decide_true by done. }
  assert (Hshape : ∀ c s0, extracted declaration c s0 =
            (Returned None, add_log (multiple_template_warning declaration) s0)).
  { intros c s0. unfold extracted. by rewrite Hs, Hamb. }
  set (s2 := add_log (multiple_template_warning declaration) s1).
  assert (Hwf2 : wf s2) by (apply wf_add_log; by apply core_state_wf).
  exists s2, (add_log (multiple_template_warning declaration)
                (core_state file (block_range parent) config s2)).
  split; [|split].
  - rewrite (getJsDocComment_block _ _ _ parent) by (done || apply Hwf). apply Hshape.
  - rewrite (getJsDocComment_block _ _ _ parent) by (done || apply Hwf2). apply Hshape.
  - pose proof (core_state_effects file (block_range parent) config s2
                  (proj1 Hwf2) eq_refl) as He.
    simpl in He.
    destruct (getCommentWithCache_resolvable file (block_range parent) config s)
      as (l & _ & _ & Hcv & _); [apply Hwf|by left|].
    fold s1 in Hcv. unfold cache_value in Hcv.
    change (cache_loc s2 (file_id file) (node_pos parent))
      with (cache_loc s1 (file_id file) (node_pos parent)) in He.
    simpl in Hcv.
    destruct (cache_loc s1 (file_id file) (node_pos parent)); [|done].
    destruct He as [Hlg Hpa]. simpl. rewrite Hlg, Hpa. simpl.
    split; [by rewrite <- app_assoc|done].
Qed.

(** X16.  Extractions for declarations of one comment block, of any kind
    and whatever they yield, parse the block once: the first call parses
    it unless it is cached, and no later call parses anything. *)
Theorem extract_all_parses_once file parent config declarations :
  ∀ s r s',
  wf s →
  Forall (in_block file parent) declarations →
  extract_all declarations config s = (r, s') →
  parsed s' =
    (parsed s ++
     match declarations, cache_loc s (file_id file) (node_pos parent) with
     | _ :: _, None => [(file_id file, node_pos parent)]
     | _, _ => []
     end)%list.
Proof.
  induction declarations as [|d ds IH]; intros s r s' Hwf Hall Hrun.
  - injection Hrun as _ <-. by rewrite app_nil_r.
  - apply Forall_cons in Hall as [[Hf Hp] Hall].
    simpl in Hrun. unfold bind at 1 in Hrun.
    destruct (getJsDocComment d config s) as [r1 s1] eqn:Hstep.
    pose proof (run_entry_post (CallGetJsDocComment d) config s r1 s1 Hwf Hstep)
      as (Hwf1 & _ & _).
    assert (Hs1 : parsed s1 = parsed (core_state file (block_range parent) config s) ∧
                  commentCache s1 = commentCache (core_state file (block_range parent) config s)).
    { rewrite (getJsDocComment_block _ _ _ parent) in Hstep by (done || apply Hwf).
      rewrite Hf in Hstep.
      pose proof (extracted_grows d (canonical file (block_range parent) config s)
                    (core_state file (block_range parent) config s)) as (_ & _ & Hpa & Hcc).
      by rewrite Hstep in Hpa, Hcc. }
    destruct Hs1 as [Hpa1 Hcc1].
    assert (Hcached : is_Some (cache_loc s1 (file_id file) (node_pos parent))).
    { destruct (getCommentWithCache_resolvable file (block_range parent) config s)
        as (l & _ & _ & Hcv & _); [apply Hwf|by left|].
      unfold cache_value in Hcv. unfold cache_loc in *. rewrite Hcc1. simpl in Hcv.
      destruct (commentCache (core_state file (block_range parent) config s)
                  !! file_id file ≫= λ m : gmap Z nat, m !! node_pos parent);
        [by eexists|done]. }
    assert (Hfirst : parsed s1 =
      (parsed s ++ match cache_loc s (file_id file) (node_pos parent) with
                   | Some _ => []
                   | None => [(file_id file, node_pos parent)]
                   end)%list).
    { rewrite Hpa1.
      pose proof (core_state_effects file (block_range parent) config s
                    (proj1 Hwf) eq_refl) as He.
      simpl in He.
      destruct (cache_loc s (file_id file) (node_pos parent)); destruct He as [_ ->];
        [by rewrite app_nil_r|done]. }
    assert (Hrest : parsed s' = parsed s1).
    { destruct r1 as [a|e1]; [|by injection Hrun as _ <-].
      unfold bind at 1 in Hrun.
      destruct (extract_all ds config s1) as [r2 s2] eqn:Hrun2.
      pose proof (IH s1 r2 s2 Hwf1 Hall Hrun2) as Hpa2.
      destruct Hcached as [l Hl]. rewrite Hl in Hpa2.
      replace (match ds with [] | _ => [] end) with (@nil (positive * Z)) in Hpa2
        by (by destruct ds).
      rewrite app_nil_r in Hpa2.
      destruct r2; injection Hrun as _ <-; exact Hpa2. }
    rewrite Hrest, Hfirst.
    by destruct (cache_loc s (file_id file) (node_pos parent)).
Qed.

(** X17.  At every point of a run, whatever was called and overwritten
    before, every object handed to a client is in the store and is not an
    object of the cache, and every reference in the cache points into the
    store. *)
Theorem reachable_clients_hold_no_cached_object s owned :
  reachable s owned →
  cache_closed s ∧
  Forall (λ l, (l < length (heap s))%nat ∧ ∀ fid p, cache_loc s fid p ≠ Some l) owned.
Proof.
  intros Hreach. destruct (reachable_invariant s owned Hreach) as [[Hc _] Hown].
  split; [exact Hc|]. exact Hown.
Qed.

End Engine.

(** ** The theorems on the sample inputs *)

#[local] Existing Instance ex_collaborators.

Lemma getCommentWithCache_idempotent_witness :
  let file := ex_module_file in
  let range := ex_range MultiLineCommentTrivia ex_module_file in
  let run1 := getCommentWithCache (Some (file, range)) ex_config initial_state in
  let run2 := getCommentWithCache (Some (file, range)) ex_config run1.2 in
  reachable initial_state [] ∧
  resolvable initial_state file range ∧
  parsed run2.2 = parsed run1.2 ∧
  view run2.2 run2.1 = view run1.2 run1.1 ∧
  (length (parsed run2.2) ≤ S (length (parsed initial_state)))%nat ∧
  NoDup (parsed run2.2) ∧
  ∃ l1 l2 c,
    run1.1 = Returned (Some l1) ∧ run2.1 = Returned (Some l2) ∧ l1 ≠ l2 ∧
    c = canonical file range ex_config initial_state ∧
    cache_value run1.2 (file_id file) (range_pos range) = Some c ∧
    cache_value run2.2 (file_id file) (range_pos range) = Some c ∧
    heap run1.2 !! l1 = Some c ∧
    heap run2.2 !! l1 = Some c ∧
    heap run2.2 !! l2 = Some c ∧
    commentCache run2.2 = commentCache run1.2 ∧
    logged run2.2 = logged run1.2.
Proof.
  intros file range run1 run2.
  assert (Hreach : reachable initial_state []) by constructor.
  assert (Hres : resolvable initial_state file range) by (left; reflexivity).
  destruct (getCommentWithCache_idempotent file range ex_config
              initial_state [] run1.1 run1.2 run2.1 run2.2 Hreach
              (surjective_pairing run1) (surjective_pairing run2))
    as (Hpa & Hview & Hlen & Hnd & Hsome & _).
  split; [exact Hreach|]. split; [exact Hres|]. split; [exact Hpa|].
  split; [exact Hview|]. split; [exact Hlen|]. split; [exact Hnd|].
  exact (Hsome Hres).
Defined.

Lemma run_entry_clone_independence_witness :
  let call := CallGetComment ex_module_symbol 0%N in
  let s1 := (run_entry call ex_config initial_state).2 in
  wf initial_state ∧
  run_entry call ex_config initial_state = (Returned (Some 1%nat), s1) ∧
  (length (heap initial_state) ≤ 1)%nat ∧ is_Some (heap s1 !! 1%nat) ∧ not_cached s1 1%nat ∧
  (∀ fid p, entry_key call = Some (fid, p) → heap s1 !! 1%nat = cache_value s1 fid p) ∧
  ∀ c',
    commentCache (mutate 1%nat c' s1) = commentCache s1 ∧
    (∀ fid p, cache_value (mutate 1%nat c' s1) fid p = cache_value s1 fid p) ∧
    ∀ call2 config2 r2 s2,
      run_entry call2 config2 s1 = (r2, s2) →
      ∃ s2', run_entry call2 config2 (mutate 1%nat c' s1) = (r2, s2') ∧
             view s2' r2 = view s2 r2 ∧
             ∀ fid p, cache_value s2' fid p = cache_value s2 fid p.
Proof.
  intros call s1.
  split; [apply wf_initial_state|]. split; [vm_compute; reflexivity|].
  apply (run_entry_clone_independence call ex_config initial_state 1%nat s1).
  - apply wf_initial_state.
  - vm_compute; reflexivity.
Defined.

Lemma getCommentWithCache_line_comment_throws_witness :
  let range := ex_range SingleLineCommentTrivia ex_plain_file in
  range_kind range = SingleLineCommentTrivia ∧
  cache_loc initial_state (file_id ex_plain_file) (range_pos range) = None ∧
  getCommentWithCache (Some (ex_plain_file, range)) ex_config initial_state =
  (Thrown (ThrownString "GERRIT FIX ME"), initial_state).
Proof.
  intros range. split; [reflexivity|]. split; [reflexivity|].
  apply (getCommentWithCache_line_comment_throws ex_plain_file range ex_config initial_state).
  - reflexivity.
  - reflexivity.
Defined.

Lemma getComment_module_attribution_witness :
  let file := ex_module_file in
  let range := ex_range MultiLineCommentTrivia ex_module_file in
  cache_closed initial_state ∧
  some_isSourceFile ex_module_symbol = true ∧
  discoverComment ex_module_symbol 0%N = (Some (file, range), []) ∧
  resolvable initial_state file range ∧
  ∃ l res s1,
    getComment ex_module_symbol 0%N ex_config initial_state = (Returned res, s1) ∧
    heap s1 !! l = Some (canonical file range ex_config initial_state) ∧
    (res = Some l ↔ module_marked (canonical file range ex_config initial_state)) ∧
    (res = None ↔ ¬ module_marked (canonical file range ex_config initial_state)).
Proof.
  intros file range.
  split; [exact (proj1 wf_initial_state)|]. split; [reflexivity|].
  split; [reflexivity|]. split; [left; reflexivity|].
  apply (getComment_module_attribution ex_module_symbol 0%N ex_config initial_state
           file range []).
  - exact (proj1 wf_initial_state).
  - reflexivity.
  - reflexivity.
  - left; reflexivity.
Defined.

Lemma getComment_cross_attribution_witness :
  let file := ex_module_file in
  let range := ex_range MultiLineCommentTrivia ex_module_file in
  cache_closed initial_state ∧
  some_isSourceFile ex_class_symbol = false ∧
  discoverComment ex_class_symbol 0%N = (Some (file, range), []) ∧
  resolvable initial_state file range ∧
  module_marked (canonical file range ex_config initial_state) ∧
  (∃ s1, getComment ex_class_symbol 0%N ex_config initial_state = (Returned None, s1)) ∧
  (∀ (sym : Symbol) (comment : option loc), is_Some comment →
     xorb (module_check_applies sym comment) (non_module_check_applies sym comment) = true) ∧
  (∀ (sym : Symbol) (comment : option loc),
     ¬ (module_check_applies sym comment = true ∧
        non_module_check_applies sym comment = true)).
Proof.
  intros file range.
  split; [exact (proj1 wf_initial_state)|]. split; [reflexivity|].
  split; [reflexivity|]. split; [left; reflexivity|].
  split; [left; vm_compute; reflexivity|].
  apply (getComment_cross_attribution ex_class_symbol 0%N ex_config initial_state
           file range []).
  - exact (proj1 wf_initial_state).
  - reflexivity.
  - reflexivity.
  - left; reflexivity.
  - left; vm_compute; reflexivity.
Defined.

Lemma getComment_without_source_file_declaration_witness :
  let file := ex_module_file in
  let range := ex_range MultiLineCommentTrivia ex_module_file in
  cache_closed initial_state ∧
  declarations ex_bare_symbol = None ∧
  discoverComment ex_bare_symbol 0%N = (Some (file, range), []) ∧
  resolvable initial_state file range ∧
  module_marked (canonical file range ex_config initial_state) ∧
  (∀ comment, module_check_applies ex_bare_symbol comment = false) ∧
  (∀ l : loc, non_module_check_applies ex_bare_symbol (Some l) = true) ∧
  ∃ s1, getComment ex_bare_symbol 0%N ex_config initial_state = (Returned None, s1).
Proof.
  intros file range.
  split; [exact (proj1 wf_initial_state)|]. split; [reflexivity|].
  split; [reflexivity|]. split; [left; reflexivity|].
  split; [left; vm_compute; reflexivity|].
  apply (getComment_without_source_file_declaration ex_bare_symbol 0%N ex_config
           initial_state file range []).
  - exact (proj1 wf_initial_state).
  - left; reflexivity.
  - reflexivity.
  - left; reflexivity.
  - left; vm_compute; reflexivity.
Defined.

Lemma getJsDocComment_missing_tag_witness :
  let parent := ex_node JSDocKind ex_plain_file in
  let block := canonical ex_plain_file (block_range parent) ex_config initial_state in
  let s1 := core_state ex_plain_file (block_range parent) ex_config initial_state in
  cache_closed initial_state ∧
  enclosing_JSDoc (decl_ancestors ex_param) = Some parent ∧
  is_ambiguous_template ex_param = false ∧
  (target_name ex_param s1).1 = Returned (Some "x") ∧
  "x" ≠ EmptyString ∧
  getIdentifiedTag block "x" ("@" +:+ decl_tagName ex_param) = None ∧
  ∃ s2,
    getJsDocComment ex_param ex_config initial_state = (Returned None, s2) ∧
    logged s2 = logged s1 ++ [missing_tag_error ex_param "x"] ∧
    commentCache s2 = commentCache s1 ∧
    heap s2 = heap s1 ∧
    (∀ fid p v, cache_value initial_state fid p = Some v → cache_value s2 fid p = Some v) ∧
    cache_value s2 (file_id ex_plain_file) (node_pos parent) = Some block.
Proof.
  intros parent block s1.
  split; [exact (proj1 wf_initial_state)|]. split; [reflexivity|].
  split; [reflexivity|]. split; [reflexivity|]. split; [discriminate|].
  split; [vm_compute; reflexivity|].
  apply (getJsDocComment_missing_tag ex_param ex_config initial_state parent "x").
  - exact (proj1 wf_initial_state).
  - reflexivity.
  - reflexivity.
  - reflexivity.
  - discriminate.
  - vm_compute; reflexivity.
Defined.

Lemma getJsDocComment_template_witness :
  let parent := ex_node JSDocKind ex_plain_file in
  let s1 := core_state ex_plain_file (block_range parent) ex_config initial_state in
  cache_closed initial_state ∧
  enclosing_JSDoc (decl_ancestors ex_template) = Some parent ∧
  decl_shape ex_template = JSDocTemplateTag ["T"; "U"] ∧
  truthy_text (decl_comment ex_template) = true ∧
  (1 < length ["T"; "U"])%nat ∧
  ∃ s2, getJsDocComment ex_template ex_config initial_state = (Returned None, s2) ∧
        logged s2 = logged s1 ++ [multiple_template_warning ex_template] ∧
        (is_Some (cache_loc initial_state (file_id ex_plain_file) (node_pos parent)) ∨
         (parse_block ex_plain_file (block_range parent) ex_config).2 = [] →
         logged s2 = logged initial_state ++ [multiple_template_warning ex_template]).
Proof.
  intros parent s1.
  split; [exact (proj1 wf_initial_state)|]. split; [reflexivity|].
  split; [reflexivity|]. split; [reflexivity|]. split; [simpl; lia|].
  apply (getJsDocComment_template ex_template ex_config initial_state parent ["T"; "U"]).
  - exact (proj1 wf_initial_state).
  - reflexivity.
  - reflexivity.
  - reflexivity.
  - simpl; lia.
Defined.

Lemma extract_all_enum_members_witness :
  let parent := ex_node JSDocKind ex_enum_file in
  let tag := {| tag_token := "@enum"; tag_name := None;
                tag_content := [TextPart "Colours"] |} in
  let members := [ex_enum_member; ex_enum_member; ex_enum_member] in
  wf initial_state ∧
  Forall (enum_member_of ex_enum_file parent) members ∧
  getTag (canonical ex_enum_file (block_range parent) ex_config initial_state) "@enum"
    = Some tag ∧
  ∃ rs s',
    extract_all members ex_config initial_state = (Returned rs, s') ∧
    length rs = length members ∧
    Forall (λ r, ∃ l, r = Some l ∧ (length (heap initial_state) ≤ l)%nat ∧
              heap s' !! l = Some {| summary := tag_content tag; blockTags := [];
                                     modifierTags := ∅ |}) rs ∧
    (length (parsed s') ≤ S (length (parsed initial_state)))%nat ∧
    (is_Some (cache_loc initial_state (file_id ex_enum_file) (node_pos parent)) →
     parsed s' = parsed initial_state).
Proof.
  intros parent tag members.
  split; [apply wf_initial_state|].
  split; [repeat constructor|]. split; [vm_compute; reflexivity|].
  apply (extract_all_enum_members ex_enum_file parent ex_config members initial_state tag).
  - apply wf_initial_state.
  - repeat constructor.
  - vm_compute; reflexivity.
Defined.

Lemma getJsDocComment_enum_without_tag_witness :
  let parent := ex_node JSDocKind ex_plain_file in
  let s1 := core_state ex_plain_file (block_range parent) ex_config initial_state in
  cache_closed initial_state ∧
  enclosing_JSDoc (decl_ancestors ex_enum_orphan) = Some parent ∧
  decl_shape ex_enum_orphan = JSDocEnumTag ∧
  getTag (canonical ex_plain_file (block_range parent) ex_config initial_state) "@enum"
    = None ∧
  ∃ l s2,
    getJsDocComment ex_enum_orphan ex_config initial_state = (Returned (Some l), s2) ∧
    heap s2 !! l = Some {| summary := []; blockTags := []; modifierTags := ∅ |} ∧
    logged s2 = logged s1 ∧
    (∀ e, e ∈ logged s2 → e ∈ logged initial_state ∨ log_level e = Warn).
Proof.
  intros parent s1.
  split; [exact (proj1 wf_initial_state)|]. split; [reflexivity|].
  split; [reflexivity|]. split; [vm_compute; reflexivity|].
  apply (getJsDocComment_enum_without_tag ex_enum_orphan ex_config initial_state parent).
  - exact (proj1 wf_initial_state).
  - reflexivity.
  - reflexivity.
  - vm_compute; reflexivity.
Defined.

(** ** The further properties on the sample inputs *)

Lemma getCommentWithCache_miss_witness :
  let file := ex_enum_file in
  let range := ex_range MultiLineCommentTrivia ex_enum_file in
  let built := parseComment
    (lexBlockComment (file_text file) (range_pos range) (range_end range)) ex_config in
  cache_loc initial_state (file_id file) (range_pos range) = None ∧
  range_kind range = MultiLineCommentTrivia ∧
  ∃ l s1,
    getCommentWithCache (Some (file, range)) ex_config initial_state
      = (Returned (Some l), s1) ∧
    heap s1 !! l = Some built.1 ∧
    cache_value s1 (file_id file) (range_pos range) = Some built.1 ∧
    cache_loc s1 (file_id file) (range_pos range) ≠ Some l ∧
    logged s1 = (logged initial_state ++
      map (λ w, {| log_level := Warn;
                   log_message := w +:+ " in comment at " +:+ nicePath (fileName file)
                     +:+ ":" +:+ pretty ((getLineAndCharacterOfPosition file
                                            (range_pos range)).1 + 1) +:+ ".";
                   log_node := None |}) built.2)%list ∧
    parsed s1 = (parsed initial_state ++ [(file_id file, range_pos range)])%list.
Proof.
  intros file range built. split; [reflexivity|]. split; [reflexivity|].
  apply (getCommentWithCache_miss file range ex_config initial_state).
  - reflexivity.
  - reflexivity.
Defined.

Lemma cache_key_is_file_and_offset_witness :
  let file := ex_module_file in
  let range := ex_range MultiLineCommentTrivia ex_module_file in
  let range2 := {| range_kind := SingleLineCommentTrivia; range_pos := 0; range_end := 5 |} in
  let config2 := {| blockTagsConfig := ∅; inlineTagsConfig := ∅; modifierTagsConfig := ∅ |} in
  let s1 := core_state file range ex_config initial_state in
  cache_closed initial_state ∧
  resolvable initial_state file range ∧
  range_pos range2 = range_pos range ∧
  getCommentWithCache (Some (file, range2)) config2 s1 =
  (Returned (Some (length (heap s1))),
   add_object (canonical file range ex_config initial_state) s1).
Proof.
  intros file range range2 config2 s1.
  split; [exact (proj1 wf_initial_state)|]. split; [left; reflexivity|].
  split; [reflexivity|].
  apply (cache_key_is_file_and_offset file range ex_config range2 config2 initial_state).
  - exact (proj1 wf_initial_state).
  - left; reflexivity.
  - reflexivity.
Defined.

Lemma run_entry_only_adds_witness :
  let call := CallGetJsDocComment ex_param in
  let run := run_entry call ex_config initial_state in
  wf initial_state ∧
  heap initial_state `prefix_of` heap run.2 ∧
  logged initial_state `prefix_of` logged run.2 ∧
  parsed initial_state `prefix_of` parsed run.2 ∧
  (∀ fid p l, cache_loc initial_state fid p = Some l → cache_loc run.2 fid p = Some l) ∧
  (∀ fid p v, cache_value initial_state fid p = Some v → cache_value run.2 fid p = Some v).
Proof.
  intros call run. split; [apply wf_initial_state|].
  apply (run_entry_only_adds call ex_config initial_state run.1 run.2).
  - apply wf_initial_state.
  - apply surjective_pairing.
Defined.

Lemma evolves_cache_stable_witness :
  let call := CallGetComment ex_module_symbol 0%N in
  let run := run_entry call ex_config initial_state in
  let s' := mutate 1%nat (Comment_new None) run.2 in
  let owned' := (handed_out run.1 ++ [])%list in
  wf initial_state ∧
  Forall (client_owned initial_state) [] ∧
  evolves initial_state [] s' owned' ∧
  wf s' ∧
  Forall (client_owned s') owned' ∧
  parsed initial_state `prefix_of` parsed s' ∧
  ∀ fid p v, cache_value initial_state fid p = Some v → cache_value s' fid p = Some v.
Proof.
  intros call run s' owned'.
  assert (Hev : evolves initial_state [] s' owned').
  { apply evolves_mutate.
    - apply (evolves_call initial_state [] initial_state [] call ex_config run.1 run.2).
      + apply evolves_refl.
      + apply surjective_pairing.
    - vm_compute. left. }
  split; [apply wf_initial_state|]. split; [constructor|]. split; [exact Hev|].
  apply (evolves_cache_stable initial_state [] s' owned').
  - apply wf_initial_state.
  - constructor.
  - exact Hev.
Defined.

Lemma reachable_cached_iff_parsed_witness :
  let call := CallGetComment ex_module_symbol 0%N in
  let run := run_entry call ex_config initial_state in
  reachable run.2 (handed_out run.1 ++ []) ∧
  ∀ fid p, is_Some (cache_loc run.2 fid p) ↔ (fid, p) ∈ parsed run.2.
Proof.
  intros call run.
  assert (Hreach : reachable run.2 (handed_out run.1 ++ [])).
  { apply (reachable_call initial_state [] call ex_config run.1 run.2).
    - apply reachable_initial.
    - apply surjective_pairing. }
  split; [exact Hreach|].
  apply (reachable_cached_iff_parsed run.2 (handed_out run.1 ++ [])).
  exact Hreach.
Defined.

Lemma getSignatureComment_unfiltered_witness :
  let file := ex_module_file in
  let range := ex_range MultiLineCommentTrivia ex_module_file in
  let s1 := core_state (env := ex_collaborators2) file range ex_config initial_state in
  cache_closed initial_state ∧
  discoverSignatureComment (Collaborators := ex_collaborators2) true = Some (file, range) ∧
  resolvable initial_state file range ∧
  module_marked (canonical (env := ex_collaborators2) file range ex_config initial_state) ∧
  ∃ l, getSignatureComment (env := ex_collaborators2) true ex_config initial_state =
         (Returned (Some l), s1) ∧
       heap s1 !! l =
         Some (canonical (env := ex_collaborators2) file range ex_config initial_state).
Proof.
  intros file range s1.
  split; [exact (proj1 wf_initial_state)|]. split; [reflexivity|].
  split; [left; reflexivity|]. split; [left; vm_compute; reflexivity|].
  apply (getSignatureComment_unfiltered (env := ex_collaborators2)
           true ex_config initial_state file range).
  - exact (proj1 wf_initial_state).
  - reflexivity.
  - left; reflexivity.
Defined.

Lemma getComment_non_module_witness :
  let file := ex_module_file in
  let range := ex_range MultiLineCommentTrivia ex_module_file in
  cache_closed initial_state ∧
  some_isSourceFile ex_class_symbol = false ∧
  discoverComment ex_class_symbol 0%N = (Some (file, range), []) ∧
  resolvable initial_state file range ∧
  ∃ l res s1,
    getComment ex_class_symbol 0%N ex_config initial_state = (Returned res, s1) ∧
    heap s1 !! l = Some (canonical file range ex_config initial_state) ∧
    (res = Some l ↔ ¬ module_marked (canonical file range ex_config initial_state)) ∧
    (res = None ↔ module_marked (canonical file range ex_config initial_state)).
Proof.
  intros file range.
  split; [exact (proj1 wf_initial_state)|]. split; [reflexivity|].
  split; [reflexivity|]. split; [left; reflexivity|].
  apply (getComment_non_module ex_class_symbol 0%N ex_config initial_state file range []).
  - exact (proj1 wf_initial_state).
  - reflexivity.
  - reflexivity.
  - left; reflexivity.
Defined.

Lemma run_entry_nothing_discovered_witness :
  let call := CallGetComment ex_other_symbol 0%N in
  is_discovery_call call = true ∧
  entry_discovered call = None ∧
  ∃ s1, run_entry call ex_config initial_state = (Returned None, s1) ∧
        heap s1 = heap initial_state ∧ commentCache s1 = commentCache initial_state ∧
        parsed s1 = parsed initial_state.
Proof.
  intros call. split; [reflexivity|]. split; [reflexivity|].
  apply (run_entry_nothing_discovered call ex_config initial_state).
  - reflexivity.
  - reflexivity.
Defined.

Lemma run_entry_line_comment_witness :
  let call := CallGetSignatureComment (env := ex_collaborators2) false in
  let file := ex_plain_file in
  let range := ex_range SingleLineCommentTrivia ex_plain_file in
  entry_discovered call = Some (file, range) ∧
  range_kind range = SingleLineCommentTrivia ∧
  cache_loc initial_state (file_id file) (range_pos range) = None ∧
  ∃ s1 s2,
    run_entry call ex_config initial_state = (Thrown (ThrownString "GERRIT FIX ME"), s1) ∧
    heap s1 = heap initial_state ∧ commentCache s1 = commentCache initial_state ∧
    parsed s1 = parsed initial_state ∧
    run_entry call ex_config s1 = (Thrown (ThrownString "GERRIT FIX ME"), s2).
Proof.
  intros call file range. split; [reflexivity|]. split; [reflexivity|].
  split; [reflexivity|].
  apply (run_entry_line_comment call ex_config initial_state file range).
  - reflexivity.
  - reflexivity.
  - reflexivity.
Defined.

Lemma run_entry_failures_witness :
  let call := CallGetJsDocComment ex_empty_template in
  let run := run_entry call ex_config initial_state in
  wf initial_state ∧
  run_entry call ex_config initial_state = (Thrown TypeError, run.2) ∧
  failure_of call ex_config initial_state TypeError run.2.
Proof.
  intros call run. split; [apply wf_initial_state|].
  split; [vm_compute; reflexivity|].
  apply (run_entry_failures call ex_config initial_state TypeError run.2).
  - apply wf_initial_state.
  - vm_compute; reflexivity.
Defined.

Lemma getJsDocComment_found_tag_witness :
  let parent := ex_node JSDocKind ex_param_file in
  let tag := {| tag_token := "@param"; tag_name := Some "x";
                tag_content := [TextPart "the x"] |} in
  let block := canonical (env := ex_collaborators2) ex_param_file (block_range parent)
                 ex_config initial_state in
  let s1 := core_state (env := ex_collaborators2) ex_param_file (block_range parent)
              ex_config initial_state in
  cache_closed initial_state ∧
  enclosing_JSDoc (decl_ancestors ex_documented_param) = Some parent ∧
  is_ambiguous_template ex_documented_param = false ∧
  (target_name ex_documented_param s1).1 = Returned (Some "x") ∧
  "x" ≠ EmptyString ∧
  getIdentifiedTag block "x" ("@" +:+ decl_tagName ex_documented_param) = Some tag ∧
  ∃ l s2,
    getJsDocComment (env := ex_collaborators2) ex_documented_param ex_config initial_state
      = (Returned (Some l), s2) ∧
    heap s2 !! l = Some (Comment_new (Some (tag_content tag))) ∧
    (length (heap initial_state) ≤ l)%nat ∧
    logged s2 = logged s1 ∧
    commentCache s2 = commentCache s1.
Proof.
  intros parent tag block s1.
  split; [exact (proj1 wf_initial_state)|]. split; [reflexivity|].
  split; [reflexivity|]. split; [reflexivity|]. split; [discriminate|].
  split; [vm_compute; reflexivity|].
  apply (getJsDocComment_found_tag (env := ex_collaborators2)
           ex_documented_param ex_config initial_state parent "x" tag).
  - exact (proj1 wf_initial_state).
  - reflexivity.
  - reflexivity.
  - reflexivity.
  - discriminate.
  - vm_compute; reflexivity.
Defined.

Lemma getJsDocComment_no_name_witness :
  let parent := ex_node JSDocKind ex_plain_file in
  let s1 := core_state ex_plain_file (block_range parent) ex_config initial_state in
  cache_closed initial_state ∧
  enclosing_JSDoc (decl_ancestors ex_unnamed_callback) = Some parent ∧
  decl_shape ex_unnamed_callback ≠ JSDocEnumTag ∧
  is_ambiguous_template ex_unnamed_callback = false ∧
  (target_name ex_unnamed_callback s1).1 = Returned None ∧
  getJsDocComment ex_unnamed_callback ex_config initial_state = (Returned None, s1).
Proof.
  intros parent s1.
  split; [exact (proj1 wf_initial_state)|]. split; [reflexivity|].
  split; [discriminate|]. split; [reflexivity|]. split; [reflexivity|].
  apply (getJsDocComment_no_name ex_unnamed_callback ex_config initial_state parent).
  - exact (proj1 wf_initial_state).
  - reflexivity.
  - discriminate.
  - reflexivity.
  - left; reflexivity.
Defined.

Lemma getJsDocComment_template_without_parameters_witness :
  let parent := ex_node JSDocKind ex_plain_file in
  let s1 := core_state ex_plain_file (block_range parent) ex_config initial_state in
  cache_closed initial_state ∧
  enclosing_JSDoc (decl_ancestors ex_empty_template) = Some parent ∧
  decl_shape ex_empty_template = JSDocTemplateTag [] ∧
  getJsDocComment ex_empty_template ex_config initial_state = (Thrown TypeError, s1) ∧
  cache_value s1 (file_id ex_plain_file) (node_pos parent)
    = Some (canonical ex_plain_file (block_range parent) ex_config initial_state).
Proof.
  intros parent s1.
  split; [exact (proj1 wf_initial_state)|]. split; [reflexivity|].
  split; [reflexivity|].
  apply (getJsDocComment_template_without_parameters ex_empty_template ex_config
           initial_state parent).
  - exact (proj1 wf_initial_state).
  - reflexivity.
  - reflexivity.
Defined.

Lemma getJsDocComment_warns_on_every_call_witness :
  let parent := ex_node JSDocKind ex_plain_file in
  let s1 := core_state ex_plain_file (block_range parent) ex_config initial_state in
  wf initial_state ∧
  enclosing_JSDoc (decl_ancestors ex_template) = Some parent ∧
  decl_shape ex_template = JSDocTemplateTag ["T"; "U"] ∧
  truthy_text (decl_comment ex_template) = true ∧
  (1 < length ["T"; "U"])%nat ∧
  ∃ s2 s3,
    getJsDocComment ex_template ex_config initial_state = (Returned None, s2) ∧
    getJsDocComment ex_template ex_config s2 = (Returned None, s3) ∧
    logged s3 = (logged s1 ++ [multiple_template_warning ex_template;
                               multiple_template_warning ex_template])%list ∧
    parsed s3 = parsed s2.
Proof.
  intros parent s1.
  split; [apply wf_initial_state|]. split; [reflexivity|].
  split; [reflexivity|]. split; [reflexivity|]. split; [simpl; lia|].
  apply (getJsDocComment_warns_on_every_call ex_template ex_config initial_state
           parent ["T"; "U"]).
  - apply wf_initial_state.
  - reflexivity.
  - reflexivity.
  - reflexivity.
  - simpl; lia.
Defined.

Lemma extract_all_parses_once_witness :
  let parent := ex_node JSDocKind ex_plain_file in
  let members := [ex_param; ex_template; ex_enum_orphan; ex_unnamed_callback] in
  let run := extract_all members ex_config initial_state in
  wf initial_state ∧
  Forall (in_block ex_plain_file parent) members ∧
  parsed run.2 = [(file_id ex_plain_file, node_pos parent)].
Proof.
  intros parent members run.
  split; [apply wf_initial_state|]. split; [repeat constructor|].
  apply (extract_all_parses_once ex_plain_file parent ex_config members
           initial_state run.1 run.2).
  - apply wf_initial_state.
  - repeat constructor.
  - apply surjective_pairing.
Defined.

Lemma reachable_clients_hold_no_cached_object_witness :
  let call := CallGetComment ex_module_symbol 0%N in
  let run := run_entry call ex_config initial_state in
  let call2 := CallGetJsDocComment ex_enum_member in
  let run2 := run_entry call2 ex_config (mutate 1%nat (Comment_new None) run.2) in
  let owned := (handed_out run2.1 ++ handed_out run.1 ++ [])%list in
  reachable run2.2 owned ∧
  cache_closed run2.2 ∧
  Forall (λ l, (l < length (heap run2.2))%nat ∧
               ∀ fid p, cache_loc run2.2 fid p ≠ Some l) owned.
Proof.
  intros call run call2 run2 owned.
  assert (Hreach : reachable run2.2 owned).
  { apply (reachable_call (mutate 1%nat (Comment_new None) run.2)
             (handed_out run.1 ++ []) call2 ex_config run2.1 run2.2).
    - apply reachable_mutate.
      + apply (reachable_call initial_state [] call ex_config run.1 run.2).
        * apply reachable_initial.
        * apply surjective_pairing.
      + vm_compute. left.
    - apply surjective_pairing. }
  split; [exact Hreach|].
  apply (reachable_clients_hold_no_cached_object run2.2 owned).
  exact Hreach.
Defined.
